(** * simple_ortho: the command-line driver ([simple_ortho/command_line.py])

    A shallow embedding of [_check_args] and [main], the batch driver that
    orthorectifies a list of source images against a DEM and a table of camera
    positions and orientations.

    The driver is effectful throughout: it consults and changes the file
    system, calls into [yaml], [pandas], [rasterio] and the [simple_ortho]
    engine, logs, raises, catches, and may leave through [exit(0)].  It is
    modelled as a state-and-exception monad over

    - a file system (a finite map from path strings to nodes), and
    - a trace of the calls the driver makes to its collaborators,

    with the collaborators themselves (glob expansion, the YAML codec, the
    CSV reader, the raster reader and the rectification engine) taken as the
    fields of a [World] record: every theorem below holds whatever these
    collaborators answer.

    Conventions of the model:

    - paths are POSIX paths; the file system maps [str(path)] to a file
      with its text or to a directory, and the driver's own tests, reads
      and writes ([exists], [is_dir], [open], [os.mkdir]) act on it;
    - a collaborator answers as a function of its arguments: the same call
      has the same answer throughout a run, and what the engine writes to
      disk is not tracked;
    - numbers are IEEE binary64 (Rocq's primitive floats), as in numpy;
    - the elapsed times that the driver logs are not modelled. *)

From Stdlib Require Import ZArith String Ascii List PrimFloat Uint63.
From stdpp Require Import base option list strings gmap.

Set Warnings "-register-all".
Local Open Scope string_scope.
Local Open Scope list_scope.
Local Open Scope Z_scope.

(** ** Python exceptions

    Every exception the driver meets is an instance of a subclass of
    [Exception]; what the driver observes of it is its class and [str(ex)]. *)

Record exn := PyExc { exn_class : string; exn_str : string }.

Definition Exception (msg : string) : exn := PyExc "Exception" msg.
Definition TypeError (msg : string) : exn := PyExc "TypeError" msg.
(** [str(KeyError(k))] is [repr(k)]. *)
Definition KeyError (key : string) : exn := PyExc "KeyError" ("'" +:+ key +:+ "'").

Inductive result (A : Type) : Type :=
| Ok (a : A)
| Err (e : exn).
Arguments Ok {A} a.
Arguments Err {A} e.

(** ** [pathlib] (POSIX flavour)

    A path is a root (empty, [/] or [//]) and its components; [Path s] drops
    empty and [.] components as [pathlib.PurePosixPath] does. *)

Record path := MkPath { root : string; parts : list string }.

Fixpoint split_on (sep : ascii) (s : string) : list string :=
  match s with
  | EmptyString => [""]
  | String c s' =>
      if Ascii.eqb c sep then "" :: split_on sep s'
      else match split_on sep s' with
           | [] => [String c ""]
           | h :: t => String c h :: t
           end
  end.

Definition is_component (s : string) : bool :=
  negb (String.eqb s "") && negb (String.eqb s ".").

Definition path_root (s : string) : string :=
  match s with
  | String "/" (String "/" (String "/" _)) => "/"
  | String "/" (String "/" _) => "//"
  | String "/" _ => "/"
  | _ => ""
  end.

Definition Path (s : string) : path :=
  MkPath (path_root s) (filter (fun c => is_component c = true) (split_on "/" s)).

Fixpoint join_with (sep : string) (l : list string) : string :=
  match l with
  | [] => ""
  | [x] => x
  | x :: l' => x +:+ sep +:+ join_with sep l'
  end.

(** [str(p)] *)
Definition path_str (p : path) : string :=
  match root p, parts p with
  | "", [] => "."
  | r, ps => r +:+ join_with "/" ps
  end.

(** [p.name] *)
Definition path_name (p : path) : string := List.last (parts p) "".

(** [p.parent] *)
Definition path_parent (p : path) : path := MkPath (root p) (removelast (parts p)).

(** [p.joinpath(other)], [other] a string *)
Definition joinpath (p : path) (other : string) : path :=
  let q := Path other in
  match root q with
  | "" => MkPath (root p) (parts p ++ parts q)
  | _ => q
  end.

(** Index of the last occurrence of [c], as [str.rfind]. *)
Fixpoint rfind (c : ascii) (s : string) : option nat :=
  match s with
  | EmptyString => None
  | String a s' =>
      match rfind c s' with
      | Some i => Some (S i)
      | None => if Ascii.eqb a c then Some 0%nat else None
      end
  end.

(** [PurePath.stem]: the name without its last suffix; a leading or a
    trailing dot starts no suffix. *)
Definition stem_of_name (name : string) : string :=
  match rfind "." name with
  | Some i =>
      if (0 <? i)%nat && (i <? String.length name - 1)%nat
      then String.substring 0 i name
      else name
  | None => name
  end.

Definition path_stem (p : path) : string := stem_of_name (path_name p).

(** ** YAML documents, as [yaml.safe_load] returns them *)

Inductive yaml : Type :=
| YNull
| YBool (b : bool)
| YInt (z : Z)
| YFloat (f : float)
| YStr (s : string)
| YSeq (items : list yaml)
| YMap (items : list (yaml * yaml)).

Fixpoint dict_get (items : list (yaml * yaml)) (key : string) : option yaml :=
  match items with
  | [] => None
  | (YStr k, v) :: rest => if String.eqb k key then Some v else dict_get rest key
  | _ :: rest => dict_get rest key
  end.

(** [v[key]] for a string [key] *)
Definition getitem (v : yaml) (key : string) : result yaml :=
  match v with
  | YMap items =>
      match dict_get items key with
      | Some x => Ok x
      | None => Err (KeyError key)
      end
  | YNull => Err (TypeError "'NoneType' object is not subscriptable")
  | YBool _ => Err (TypeError "'bool' object is not subscriptable")
  | YInt _ => Err (TypeError "'int' object is not subscriptable")
  | YFloat _ => Err (TypeError "'float' object is not subscriptable")
  | YStr _ => Err (TypeError "string indices must be integers")
  | YSeq _ => Err (TypeError "list indices must be integers or slices, not str")
  end.

(** Truth value of a document in [if v:] *)
Definition truthy (v : yaml) : bool :=
  match v with
  | YNull => false
  | YBool b => b
  | YInt z => negb (z =? 0)
  | YFloat f => negb (PrimFloat.eqb f 0%float)
  | YStr s => negb (String.eqb s "")
  | YSeq l => match l with [] => false | _ => true end
  | YMap l => match l with [] => false | _ => true end
  end.

(** ** The pose table, as [pandas.read_csv] returns it

    A frame indexed by its first column, rows in file order; an index label
    may repeat. *)

Record pose_row := MkPose {
  easting : float; northing : float; altitude : float;
  omega : float; phi : float; kappa : float
}.

Definition pose_table := list (string * pose_row).

(** [label in table.index] *)
Definition index_contains (t : pose_table) (label : string) : bool :=
  existsb (fun r => String.eqb (fst r) label) t.

(** [table.loc[label]]: a [Series] for a label that occurs once, a frame of
    all its rows for one that repeats. *)
Inductive selection :=
| Series (r : pose_row)
| Frame (rows : list pose_row).

Definition rows_of (t : pose_table) (label : string) : list pose_row :=
  map snd (List.filter (fun r => String.eqb (fst r) label) t).

Definition loc (t : pose_table) (label : string) : result selection :=
  match rows_of t label with
  | [] => Err (KeyError label)
  | [r] => Ok (Series r)
  | rs => Ok (Frame rs)
  end.

(** numpy arrays of rank one and two *)
Inductive ndarray :=
| Arr1 (v : list float)
| Arr2 (m : list (list float)).

Definition np_pi : float := 0x1.921fb54442d18p+1%float.

(** [np.pi * x / 180.] *)
Definition deg2rad (x : float) : float := (np_pi * x / 180)%float.

(** [np.array(np.pi * im_pos_ori[['omega', 'phi', 'kappa']] / 180.)] *)
Definition orientation_of (sel : selection) : ndarray :=
  match sel with
  | Series r => Arr1 [deg2rad (omega r); deg2rad (phi r); deg2rad (kappa r)]
  | Frame rs =>
      Arr2 (map (fun r => [deg2rad (omega r); deg2rad (phi r); deg2rad (kappa r)]) rs)
  end.

(** [np.array([im_pos_ori['easting'], im_pos_ori['northing'], im_pos_ori['altitude']])] *)
Definition position_of (sel : selection) : ndarray :=
  match sel with
  | Series r => Arr1 [easting r; northing r; altitude r]
  | Frame rs => Arr2 [map easting rs; map northing rs; map altitude rs]
  end.

(** ** What the driver hands to its collaborators *)

(** What [rasterio.open] exposes of a source image. *)
Record raster_info := MkRaster {
  transform : list float; width : Z; height : Z
}.

(** [np.float64(n)] for a pixel count *)
Definition np_float64 (n : Z) : float := PrimFloat.of_uint63 (Uint63.of_Z n).

(** The arguments of [simple_ortho.Camera(...)] ([dtype] is always
    [np.float32]). *)
Record camera := MkCamera {
  focal_len : yaml;
  sensor_size : yaml;
  im_size : list float;
  geo_transform : list float;
  position : ndarray;
  orientation : ndarray
}.

(** The arguments of [simple_ortho.OrthoIm(...)]. *)
Record ortho_im := MkOrthoIm {
  src_im_filename : path;
  dem_filename : string;
  ortho_camera : camera;
  ortho_config : yaml;
  ortho_im_filename : option path
}.

(** ** The collaborators

    [glob parent pattern] is [parent.glob(pattern)]; the engine's operations
    answer [None] when they return and [Some ex] when they raise. *)

Record World := MkWorld {
  root_path : path;
  glob : path -> string -> result (list path);
  yaml_safe_load : string -> result yaml;
  yaml_dump : yaml -> string;
  read_csv : string -> result pose_table;
  rio_open : path -> result raster_info;
  Camera_init : camera -> option exn;
  OrthoIm_init : ortho_im -> option exn;
  orthorectify : ortho_im -> option exn;
  build_ortho_overviews : ortho_im -> option exn
}.

(** ** State: the file system and the trace of calls *)

Inductive node :=
| File (contents : string)
| Dir.

Inductive log_level := INFO | WARNING | ERROR.

Inductive event :=
| EvSetLevel (logger : string) (level : Z)
| EvLog (level : log_level) (msg : string)
| EvExists (p : path)
| EvIsDir (p : path)
| EvWrite (file : path) (contents : string)
| EvGlob (parent : path) (pattern : string)
| EvMkdir (dir : string)
| EvReadCsv (file : string)
| EvRioOpen (file : path)
| EvCamera (c : camera)
| EvOrthoIm (o : ortho_im)
| EvOrthorectify (o : ortho_im)
| EvBuildOverviews (o : ortho_im).

Record state := MkState {
  fs : gmap string node;
  trace : list event
}.

(** ** The monad: state, [raise], and [exit]

    [SysExit] is [SystemExit], which is no [Exception]: [except Exception]
    lets it through. *)

Inductive outcome (A : Type) : Type :=
| Ret (a : A)
| Raise (e : exn)
| SysExit (code : Z).
Arguments Ret {A} a.
Arguments Raise {A} e.
Arguments SysExit {A} code.

Definition M (A : Type) : Type := state -> outcome A * state.

#[global] Instance M_ret : MRet M := fun A a s => (Ret a, s).

#[global] Instance M_bind : MBind M := fun A B k m s =>
  match m s with
  | (Ret a, s') => k a s'
  | (Raise e, s') => (Raise e, s')
  | (SysExit c, s') => (SysExit c, s')
  end.

Definition raise {A} (e : exn) : M A := fun s => (Raise e, s).

(** [exit(code)] *)
Definition sys_exit {A} (code : Z) : M A := fun s => (SysExit code, s).

(** [try: m  except Exception as ex: h ex] *)
Definition try_except {A} (m : M A) (h : exn -> M A) : M A := fun s =>
  match m s with
  | (Raise e, s') => h e s'
  | r => r
  end.

Definition emit (e : event) : M unit := fun s =>
  (Ret tt, MkState (fs s) (trace s ++ [e])).

Definition lift_result {A} (r : result A) : M A :=
  match r with
  | Ok a => mret a
  | Err e => raise e
  end.

Definition lift_status (r : option exn) : M unit :=
  match r with
  | None => mret tt
  | Some e => raise e
  end.

Definition when (b : bool) (m : M unit) : M unit := if b then m else mret tt.

Fixpoint for_each {A B} (l : list A) (body : A -> M B) : M (list B) :=
  match l with
  | [] => mret []
  | x :: l' => b ← body x; bs ← for_each l' body; mret (b :: bs)
  end.

(** ** File-system and logging primitives *)

Definition lookup_node (p : string) : M (option node) := fun s => (Ret (fs s !! p), s).

Definition put_node (p : string) (n : node) : M unit := fun s =>
  (Ret tt, MkState (<[p := n]> (fs s)) (trace s)).

(** [p.exists()] *)
Definition path_exists (p : path) : M bool :=
  emit (EvExists p);;
  n ← lookup_node (path_str p);
  mret (match n with Some _ => true | None => false end).

(** [p.is_dir()] *)
Definition path_is_dir (p : path) : M bool :=
  emit (EvIsDir p);;
  n ← lookup_node (path_str p);
  mret (match n with Some Dir => true | _ => false end).

(** The directories a path goes through, outermost first: for [a/b/c],
    [.], [a] and [a/b]. *)
Definition ancestors (p : path) : list path :=
  map (fun k => MkPath (root p) (take k (parts p))) (seq 0 (length (parts p))).

(** What stops the operating system on its way to the last component of
    [name]: the first of its directories that is missing ([ENOENT]) or is
    a regular file ([ENOTDIR]). *)
Fixpoint blocked (files : gmap string node) (name : string) (dirs : list path)
    : option exn :=
  match dirs with
  | [] => None
  | d :: dirs' =>
      match files !! path_str d with
      | Some Dir => blocked files name dirs'
      | Some (File _) =>
          Some (PyExc "NotADirectoryError"
                  ("[Errno 20] Not a directory: '" +:+ name +:+ "'"))
      | None =>
          Some (PyExc "FileNotFoundError"
                  ("[Errno 2] No such file or directory: '" +:+ name +:+ "'"))
      end
  end.

(** The [OSError] of [open(p, 'w')], if any. *)
Definition write_failure (files : gmap string node) (p : path) : option exn :=
  match blocked files (path_str p) (ancestors p) with
  | Some e => Some e
  | None =>
      match files !! path_str p with
      | Some Dir => Some (PyExc "IsADirectoryError"
                            ("[Errno 21] Is a directory: '" +:+ path_str p +:+ "'"))
      | _ => None
      end
  end.

Definition get_files : M (gmap string node) := fun s => (Ret (fs s), s).

(** [os.mkdir(d)] *)
Definition os_mkdir (d : string) : M unit :=
  files ← get_files;
  match blocked files d (ancestors (Path d)) with
  | Some e => raise e
  | None =>
      match files !! d with
      | Some _ => raise (PyExc "FileExistsError" ("[Errno 17] File exists: '" +:+ d +:+ "'"))
      | None =>
          emit (EvMkdir d);;
          put_node d Dir
      end
  end.

(** [with open(p, 'r') as f: f.read()] *)
Definition open_read (p : path) : M string :=
  n ← lookup_node (path_str p);
  match n with
  | Some (File c) => mret c
  | Some Dir => raise (PyExc "IsADirectoryError"
                         ("[Errno 21] Is a directory: '" +:+ path_str p +:+ "'"))
  | None => raise (PyExc "FileNotFoundError"
                     ("[Errno 2] No such file or directory: '" +:+ path_str p +:+ "'"))
  end.

(** [with open(p, 'w') as f: f.write(contents)] *)
Definition open_write (p : path) (contents : string) : M unit :=
  files ← get_files;
  match write_failure files p with
  | Some e => raise e
  | None =>
      emit (EvWrite p contents);;
      put_node (path_str p) (File contents)
  end.

Definition logger_info (msg : string) : M unit := emit (EvLog INFO msg).
Definition logger_warning (msg : string) : M unit := emit (EvLog WARNING msg).
Definition logger_error (msg : string) : M unit := emit (EvLog ERROR msg).

(** The terminal state of one image: the arm of its [try] statement that
    ran.  The source returns nothing here; the driver's embedding returns
    these so that theorems can speak of them. *)
Inductive image_status :=
| Succeeded
| Skipped (reason : exn).

(** The elapsed time printed by [f'Completed in {...:.2f} secs'] is not
    modelled. *)
Definition completed_msg : string := "Completed in <ttl_time> secs".

Section Driver.

Context (w : World).

Definition do_glob (parent : path) (pattern : string) : M (list path) :=
  emit (EvGlob parent pattern);; lift_result (glob w parent pattern).

(** *** [_check_args] *)

Definition _check_args (src_im_file : list string) (dem_file pos_ori_file : string)
    (ortho_dir : option string) : M unit :=
  (* check files exist *)
  for_each src_im_file (fun src_im_file_spec =>
    let src_im_file_path := Path src_im_file_spec in
    found ← do_glob (path_parent src_im_file_path) (path_name src_im_file_path);
    when (Nat.eqb (length found) 0)
      (raise (Exception
         ("Could not find any source image(s) matching " +:+ src_im_file_spec))));;
  dem_exists ← path_exists (Path dem_file);
  when (negb dem_exists)
    (raise (Exception ("DEM file " +:+ dem_file +:+ " does not exist")));;
  pos_ori_exists ← path_exists (Path pos_ori_file);
  when (negb pos_ori_exists)
    (raise (Exception ("Camera position and orientation file " +:+ pos_ori_file
                         +:+ " does not exist")));;
  (* check and create ortho_dir if necessary *)
  match ortho_dir with
  | Some ortho_dir =>
      let ortho_dir := Path ortho_dir in
      is_dir ← path_is_dir ortho_dir;
      when (negb is_dir)
        (raise (Exception ("Ortho directory " +:+ path_str ortho_dir
                             +:+ " is not a valid directory")));;
      ex ← path_exists ortho_dir;
      when (negb ex)
        (logger_warning ("Creating ortho directory " +:+ path_str ortho_dir);;
         os_mkdir (path_str ortho_dir))
  | None => mret tt
  end.

(** *** [main]: the body of the inner [try], for one image *)

Definition image_body (config : yaml) (cam_pos_orid : pose_table)
    (dem_file pos_ori_file : string) (ortho_dir : option string)
    (src_im_filename : path) : M unit :=
  when (negb (index_contains cam_pos_orid (path_stem src_im_filename)))
    (raise (Exception ("Could not find " +:+ path_stem src_im_filename
                         +:+ " in " +:+ pos_ori_file)));;
  im_pos_ori ← lift_result (loc cam_pos_orid (path_stem src_im_filename));
  let orientation := orientation_of im_pos_ori in
  let position := position_of im_pos_ori in
  (* set ortho filename *)
  let ortho_im_filename :=
    match ortho_dir with
    | Some d => Some (joinpath (Path d) (path_stem src_im_filename +:+ "_ORTHO.tif"))
    | None => None
    end in
  (* Get src geotransform *)
  emit (EvRioOpen src_im_filename);;
  src_im ← lift_result (rio_open w src_im_filename);
  let geo_transform := transform src_im in
  let im_size := [np_float64 (width src_im); np_float64 (height src_im)] in
  (* create Camera *)
  camera_config ← lift_result (getitem config "camera");
  focal ← lift_result (getitem camera_config "focal_len");
  sensor ← lift_result (getitem camera_config "sensor_size");
  let camera := MkCamera focal sensor im_size geo_transform position orientation in
  emit (EvCamera camera);;
  lift_status (Camera_init w camera);;
  (* create OrthoIm  and orthorectify *)
  logger_info ("Orthorectifying " +:+ path_name src_im_filename);;
  ortho_config ← lift_result (getitem config "ortho");
  let ortho_im := MkOrthoIm src_im_filename dem_file camera ortho_config ortho_im_filename in
  emit (EvOrthoIm ortho_im);;
  lift_status (OrthoIm_init w ortho_im);;
  emit (EvOrthorectify ortho_im);;
  lift_status (orthorectify w ortho_im);;
  logger_info completed_msg;;
  ortho_config' ← lift_result (getitem config "ortho");
  build_ovw ← lift_result (getitem ortho_config' "build_ovw");
  when (truthy build_ovw)
    (logger_info ("Building overviews for " +:+ path_name src_im_filename);;
     emit (EvBuildOverviews ortho_im);;
     lift_status (build_ortho_overviews w ortho_im);;
     logger_info completed_msg).

(** The inner [try ... except Exception as ex] around one image. *)
Definition process_image (config : yaml) (cam_pos_orid : pose_table)
    (dem_file pos_ori_file : string) (ortho_dir : option string)
    (src_im_filename : path) : M (path * image_status) :=
  try_except
    (image_body config cam_pos_orid dem_file pos_ori_file ortho_dir src_im_filename;;
     mret (src_im_filename, Succeeded))
    (fun ex =>
       (* catch exceptions so that problem image(s) don't prevent processing of a batch *)
       logger_error ("Exception: " +:+ exn_str ex);;
       mret (src_im_filename, Skipped ex)).

(** *** [main] *)

Definition config_path (read_conf : option string) : path :=
  match read_conf with
  | None => joinpath (root_path w) "config.yaml"
  | Some f => Path f
  end.

Definition main (src_im_file : list string) (dem_file pos_ori_file : string)
    (ortho_dir read_conf write_conf : option string) (verbosity : option Z)
    : M (list (path * image_status)) :=
  try_except
    ((* set logging level *)
     match verbosity with
     | Some v =>
         emit (EvSetLevel "command_line" (10 * v));;
         emit (EvSetLevel "simple_ortho" (10 * v))
     | None => mret tt
     end;;
     (* read configuration *)
     let config_filename := config_path read_conf in
     config_exists ← path_exists config_filename;
     when (negb config_exists)
       (raise (Exception ("Config file " +:+ path_str config_filename
                            +:+ " does not exist")));;
     text ← open_read config_filename;
     config ← lift_result (yaml_safe_load w text);
     (* write configuration if requested and exit *)
     match write_conf with
     | Some f =>
         let out_config_filename := Path f in
         open_write out_config_filename (yaml_dump w config);;
         logger_info ("Wrote config to " +:+ path_str out_config_filename);;
         sys_exit 0
     | None => mret tt
     end;;
     (* checks paths etc *)
     _check_args src_im_file dem_file pos_ori_file ortho_dir;;
     (* read camera position and orientation and find row for src_im_file *)
     emit (EvReadCsv pos_ori_file);;
     cam_pos_orid ← lift_result (read_csv w pos_ori_file);
     (* loop through image file(s) or wildcard(s), or combinations thereof *)
     reports ← for_each src_im_file (fun src_im_file_spec =>
       let src_im_file_path := Path src_im_file_spec in
       files ← do_glob (path_parent src_im_file_path) (path_name src_im_file_path);
       for_each files
         (process_image config cam_pos_orid dem_file pos_ori_file ortho_dir));
     mret (concat reports))
    (fun ex =>
       logger_error ("Exception: " +:+ exn_str ex);;
       raise ex).

(** Lines 117-118 on their own: what a run reads as its configuration
    from the file [p]. *)
Definition load_config (p : path) : M yaml :=
  text ← open_read p;
  lift_result (yaml_safe_load w text).

End Driver.

(** ** A concrete world for examples

    A directory listing, with glob patterns of literal characters, [*] and
    [?] expanded against it. *)

Module Sample.

Fixpoint wild_match (pat s : string) {struct pat} : bool :=
  match pat with
  | EmptyString => match s with EmptyString => true | _ => false end
  | String "*" pat' =>
      (fix star (s : string) : bool :=
         wild_match pat' s
         || match s with EmptyString => false | String _ s' => star s' end) s
  | String "?" pat' =>
      match s with String _ s' => wild_match pat' s' | EmptyString => false end
  | String c pat' =>
      match s with
      | String d s' => Ascii.eqb c d && wild_match pat' s'
      | EmptyString => false
      end
  end.

Definition same_dir (p q : path) : bool :=
  String.eqb (path_str p) (path_str q).

Definition glob_in (files : list string) (parent : path) (pattern : string)
    : result (list path) :=
  Ok (List.filter
        (fun f => same_dir (path_parent f) parent && wild_match pattern (path_name f))
        (map Path files)).

Definition img001 : pose_row :=
  MkPose 500000.0 4000000.0 1200.0 1.5 (-0x1.3333333333333p-2) 90.0.

Definition config_text : string := "camera: ... ortho: ...".

Definition config : yaml :=
  YMap [(YStr "camera", YMap [(YStr "focal_len", YFloat 120.0);
                              (YStr "sensor_size", YSeq [YFloat 92.5; YFloat 165.875])]);
        (YStr "ortho", YMap [(YStr "build_ovw", YBool true)])].

Definition raster : raster_info := MkRaster [1; 0; 0; 0; -1; 0]%float 4000 3000.

Definition world_with (cfg : yaml) : World := {|
  root_path := Path ".";
  glob := glob_in ["img001.tif"; "img002.tif"; "notes.txt"];
  yaml_safe_load := fun text => if String.eqb text config_text then Ok cfg
                                else Err (PyExc "YAMLError" "could not parse");
  yaml_dump := fun _ => config_text;
  read_csv := fun _ => Ok [("img001", img001)];
  rio_open := fun _ => Ok raster;
  Camera_init := fun _ => None;
  OrthoIm_init := fun _ => None;
  orthorectify := fun _ => None;
  build_ortho_overviews := fun _ => None
|}.

Definition world : World := world_with config.

Definition files : gmap string node :=
  list_to_map [(".", Dir); ("config.yaml", File config_text);
               ("dem.tif", File ""); ("pose.txt", File "");
               ("img001.tif", File ""); ("img002.tif", File "");
               ("notes.txt", File "")].

Definition init : state := MkState files [].

End Sample.

(** * Vocabulary for stating what a run does *)

(** ** Computations that only emit

    [emits m o evs]: from any state, [m] ends with outcome [o], leaves the
    file system alone and appends exactly [evs] to the trace. *)

Definition emits {A} (m : M A) (o : outcome A) (evs : list event) : Prop :=
  forall s, m s = (o, MkState (fs s) (trace s ++ evs)).

(** An outcome that is no [exit]. *)
Definition no_exit {A} (o : outcome A) : Prop :=
  match o with SysExit _ => False | _ => True end.

(** [oblivious m]: [m] only emits, and does not leave through [exit]. *)
Definition oblivious {A} (m : M A) : Prop :=
  exists o evs, emits m o evs /\ no_exit o.

(** What an oblivious computation does is read off from its run in the
    blank state. *)
Definition blank : state := MkState ∅ [].

Definition run_blank {A} (m : M A) : outcome A * list event :=
  ((m blank).1, trace (m blank).2).

(** ** Views of a run, as pure functions of the world and the file system *)

Section Views.

Context (w : World).

(** The matches of one pattern, and the call that asks for them. *)
Definition matches (spec : string) : result (list path) :=
  glob w (path_parent (Path spec)) (path_name (Path spec)).

Definition glob_event (spec : string) : event :=
  EvGlob (path_parent (Path spec)) (path_name (Path spec)).

Definition pattern_ok (spec : string) : bool :=
  match matches spec with
  | Ok (_ :: _) => true
  | _ => false
  end.

(** What [_check_args] raises at a pattern that is not [pattern_ok]. *)
Definition pattern_error (spec : string) : exn :=
  match matches spec with
  | Err e => e
  | Ok _ => Exception ("Could not find any source image(s) matching " +:+ spec)
  end.

(** The patterns [_check_args] expands: up to the first that fails. *)
Fixpoint checked (src : list string) : list string :=
  match src with
  | [] => []
  | spec :: rest => if pattern_ok spec then spec :: checked rest else [spec]
  end.

Fixpoint first_bad (src : list string) : option string :=
  match src with
  | [] => None
  | spec :: rest => if pattern_ok spec then first_bad rest else Some spec
  end.

(** The resolved images: the matches of each pattern, in argument order. *)
Definition resolved (src : list string) : list path :=
  concat (map (fun spec => match matches spec with Ok l => l | Err _ => [] end) src).

Definition node_exists (files : gmap string node) (p : string) : bool :=
  match files !! path_str (Path p) with Some _ => true | None => false end.

Definition is_directory (files : gmap string node) (p : string) : bool :=
  match files !! path_str (Path p) with Some Dir => true | _ => false end.

(** The four input validations. *)
Definition validations_pass (files : gmap string node) (src : list string)
    (dem pos : string) (od : option string) : bool :=
  forallb pattern_ok src && node_exists files dem && node_exists files pos
  && match od with Some d => is_directory files d | None => true end.

(** The exception of the first validation that fails, in the order
    [_check_args] makes them. *)
Definition check_failure (files : gmap string node) (src : list string)
    (dem pos : string) (od : option string) : option exn :=
  match first_bad src with
  | Some spec => Some (pattern_error spec)
  | None =>
      if negb (node_exists files dem)
      then Some (Exception ("DEM file " +:+ dem +:+ " does not exist"))
      else if negb (node_exists files pos)
      then Some (Exception ("Camera position and orientation file " +:+ pos
                              +:+ " does not exist"))
      else match od with
           | Some d =>
               if negb (is_directory files d)
               then Some (Exception ("Ortho directory " +:+ path_str (Path d)
                                       +:+ " is not a valid directory"))
               else None
           | None => None
           end
  end.

(** The events of [_check_args]: the patterns it expands, then the
    existence tests it gets to. *)
Definition check_events (files : gmap string node) (src : list string)
    (dem pos : string) (od : option string) : list event :=
  map glob_event (checked src)
  ++ match first_bad src with
     | Some _ => []
     | None =>
         EvExists (Path dem)
         :: if negb (node_exists files dem) then []
            else EvExists (Path pos)
                 :: if negb (node_exists files pos) then []
                    else match od with
                         | Some d =>
                             EvIsDir (Path d)
                             :: if negb (is_directory files d) then []
                                else [EvExists (Path d)]
                         | None => []
                         end
     end.

(** ... all of them, when every validation passes. *)
Definition validation_events (src : list string) (dem pos : string)
    (od : option string) : list event :=
  map glob_event src
  ++ [EvExists (Path dem); EvExists (Path pos)]
  ++ match od with
     | Some d => [EvIsDir (Path d); EvExists (Path d)]
     | None => []
     end.

(** The events of [verbosity]'s two [setLevel] calls. *)
Definition level_events (verbosity : option Z) : list event :=
  match verbosity with
  | Some v => [EvSetLevel "command_line" (10 * v); EvSetLevel "simple_ortho" (10 * v)]
  | None => []
  end.

(** The event of the outer handler's [logger.error]. *)
Definition error_event (e : exn) : event := EvLog ERROR ("Exception: " +:+ exn_str e).

(** Events of the per-image pipeline: the source image is opened, or the
    engine is called. *)
Definition is_image_event (e : event) : bool :=
  match e with
  | EvRioOpen _ | EvCamera _ | EvOrthoIm _ | EvOrthorectify _ | EvBuildOverviews _ => true
  | _ => false
  end.

(** Events that change the file system. *)
Definition changes_fs (e : event) : bool :=
  match e with
  | EvWrite _ _ | EvMkdir _ => true
  | _ => false
  end.

Section ImageViews.

Context (config : yaml) (cam_pos_orid : pose_table) (dem_file pos_ori_file : string)
        (ortho_dir : option string).

(** Outcome and events of the inner [try] body for one image. *)
Definition image_run (img : path) : outcome unit * list event :=
  run_blank (image_body w config cam_pos_orid dem_file pos_ori_file ortho_dir img).

Definition image_status_of (img : path) : image_status :=
  match (image_run img).1 with
  | Raise e => Skipped e
  | _ => Succeeded
  end.

Definition image_events (img : path) : list event :=
  (image_run img).2
  ++ match (image_run img).1 with
     | Raise e => [error_event e]
     | _ => []
     end.

(** Report and events of the image loop over the given patterns. *)
Definition loop_report (src : list string) : list (path * image_status) :=
  map (fun img => (img, image_status_of img)) (resolved src).

Definition loop_events (src : list string) : list event :=
  concat (map (fun spec =>
                 glob_event spec
                 :: concat (map image_events
                              (match matches spec with Ok l => l | Err _ => [] end)))
              src).

End ImageViews.

End Views.

(** ** The run of [main], branch by branch *)

Section MainView.

Context (w : World).

(** A batch-fatal end: the file system as it was, the events so far, the
    outer handler's log line, and the exception raised again. *)
Definition fatal {A} (s : state) (evs : list event) (e : exn) : outcome A * state :=
  (Raise e, MkState (fs s) (trace s ++ evs ++ [error_event e])).

(** [main], written out as one case analysis on the file system and on the
    collaborators' answers (it is [main] by [main_run] below). *)
Definition main_view (src : list string) (dem pos : string)
    (od rc wc : option string) (v : option Z) (s : state)
    : outcome (list (path * image_status)) * state :=
  let cfg := config_path w rc in
  let pre := level_events v ++ [EvExists cfg] in
  match fs s !! path_str cfg with
  | None =>
      fatal s pre (Exception ("Config file " +:+ path_str cfg +:+ " does not exist"))
  | Some Dir =>
      fatal s pre (PyExc "IsADirectoryError"
                     ("[Errno 21] Is a directory: '" +:+ path_str cfg +:+ "'"))
  | Some (File text) =>
      match yaml_safe_load w text with
      | Err e => fatal s pre e
      | Ok config =>
          match wc with
          | Some f =>
              let out := Path f in
              match write_failure (fs s) out with
              | Some e => fatal s pre e
              | None =>
                  (SysExit 0,
                   MkState (<[path_str out := File (yaml_dump w config)]> (fs s))
                     (trace s ++ pre ++ [EvWrite out (yaml_dump w config);
                                         EvLog INFO ("Wrote config to " +:+ path_str out)]))
              end
          | None =>
              match check_failure w (fs s) src dem pos od with
              | Some e => fatal s (pre ++ check_events w (fs s) src dem pos od) e
              | None =>
                  match read_csv w pos with
                  | Err e =>
                      fatal s (pre ++ validation_events src dem pos od ++ [EvReadCsv pos]) e
                  | Ok table =>
                      (Ret (loop_report w config table dem pos od src),
                       MkState (fs s)
                         (trace s ++ pre ++ validation_events src dem pos od
                            ++ [EvReadCsv pos]
                            ++ loop_events w config table dem pos od src))
                  end
              end
          end
      end
  end.

End MainView.

(** * The embedding on concrete inputs *)

Example Path_normalises :
  path_str (Path "a/b/") = "a/b" /\ path_str (Path "./x//y.tif") = "x/y.tif"
  /\ path_str (Path "") = "." /\ path_str (Path "//a") = "//a"
  /\ path_str (Path "///a") = "/a".
Proof. repeat split; reflexivity. Qed.

Example pattern_splits :
  path_str (path_parent (Path "data/*.tif")) = "data"
  /\ path_name (Path "data/*.tif") = "*.tif"
  /\ path_str (path_parent (Path "img001.tif")) = ".".
Proof. repeat split; reflexivity. Qed.

Example stems :
  path_stem (Path "data/img001.tif") = "img001" /\ path_stem (Path ".hidden") = ".hidden"
  /\ path_stem (Path "a.tar.gz") = "a.tar" /\ path_stem (Path "a.") = "a.".
Proof. repeat split; reflexivity. Qed.

Example ortho_filename :
  path_str (joinpath (Path "out/") (path_stem (Path "data/img001.tif") +:+ "_ORTHO.tif"))
  = "out/img001_ORTHO.tif".
Proof. reflexivity. Qed.

Example getitem_examples :
  getitem Sample.config "ortho" = Ok (YMap [(YStr "build_ovw", YBool true)])
  /\ getitem (YMap []) "camera" = Err (KeyError "camera")
  /\ exn_class (KeyError "camera") = "KeyError"
  /\ exn_str (KeyError "camera") = "'camera'"
  /\ getitem YNull "camera" = Err (TypeError "'NoneType' object is not subscriptable").
Proof. repeat split; reflexivity. Qed.

Example loc_examples :
  loc [("a", Sample.img001); ("b", Sample.img001)] "a" = Ok (Series Sample.img001)
  /\ loc [("a", Sample.img001); ("a", Sample.img001)] "a"
     = Ok (Frame [Sample.img001; Sample.img001])
  /\ index_contains [("a", Sample.img001)] "b" = false.
Proof. repeat split; reflexivity. Qed.

(** [np.pi * 90. / 180.] is the double nearest to pi/2; the product is
    taken before the quotient, and the two orders differ in the last bit
    at 1.5. *)
Example deg2rad_examples :
  deg2rad 90 = 0x1.921fb54442d18p+0%float
  /\ deg2rad 1.5 = 0x1.acee9f37bebd5p-6%float
  /\ (1.5 * (np_pi / 180))%float = 0x1.acee9f37bebd6p-6%float.
Proof. repeat split; reflexivity. Qed.

Example sample_globs :
  glob Sample.world (Path ".") "*.tif" = Ok [Path "img001.tif"; Path "img002.tif"]
  /\ glob Sample.world (Path ".") "img00?.tif" = Ok [Path "img001.tif"; Path "img002.tif"]
  /\ glob Sample.world (Path ".") "x*" = Ok [].
Proof. repeat split; reflexivity. Qed.

(** A run of [main] on the sample world: two images match, the second has
    no pose. *)
Example sample_run :
  (main Sample.world ["*.tif"] "dem.tif" "pose.txt" None None None (Some 2) Sample.init).1
  = Ret [(Path "img001.tif", Succeeded);
         (Path "img002.tif", Skipped (Exception "Could not find img002 in pose.txt"))].
Proof. vm_compute. reflexivity. Qed.

(** * Reasoning about runs *)

(** ** Computations that only emit *)

Lemma state_eta (s : state) : MkState (fs s) (trace s ++ []) = s.
Proof. destruct s; simpl. by rewrite app_nil_r. Qed.

Lemma emits_ret {A} (a : A) : emits (mret a) (Ret a) [].
Proof. intros s. unfold mret, M_ret. by rewrite state_eta. Qed.

Lemma emits_raise {A} (e : exn) : emits (@raise A e) (Raise e) [].
Proof. intros s. unfold raise. by rewrite state_eta. Qed.

Lemma emits_emit (e : event) : emits (emit e) (Ret tt) [e].
Proof. by intros s. Qed.

Lemma emits_bind {A B} (m : M A) (k : A -> M B) a evs1 o evs2 :
  emits m (Ret a) evs1 -> emits (k a) o evs2 -> emits (m ≫= k) o (evs1 ++ evs2).
Proof.
  intros Hm Hk s. unfold mbind, M_bind. rewrite Hm, Hk. simpl.
  by rewrite app_assoc.
Qed.

Lemma emits_bind_raise {A B} (m : M A) (k : A -> M B) e evs :
  emits m (Raise e) evs -> emits (m ≫= k) (Raise e) evs.
Proof. intros Hm s. unfold mbind, M_bind. by rewrite Hm. Qed.

Lemma emits_as {A} (m : M A) o evs o' evs' :
  emits m o evs -> o = o' -> evs = evs' -> emits m o' evs'.
Proof. by intros H <- <-. Qed.

Lemma oblivious_ret {A} (a : A) : oblivious (mret a).
Proof. exists (Ret a), []. split; [apply emits_ret | done]. Qed.

Lemma oblivious_raise {A} (e : exn) : oblivious (@raise A e).
Proof. exists (Raise e), []. split; [apply emits_raise | done]. Qed.

Lemma oblivious_emit (e : event) : oblivious (emit e).
Proof. exists (Ret tt), [e]. split; [apply emits_emit | done]. Qed.

Lemma oblivious_bind {A B} (m : M A) (k : A -> M B) :
  oblivious m -> (forall a, oblivious (k a)) -> oblivious (m ≫= k).
Proof.
  intros (o & evs & Hm & Hne) Hk. destruct o as [a | e | c]; [| | done].
  - destruct (Hk a) as (o' & evs' & Hk' & Hne').
    exists o', (evs ++ evs'). split; [by eapply emits_bind | done].
  - exists (Raise e), evs. split; [by apply emits_bind_raise | done].
Qed.

Lemma oblivious_lift_result {A} (r : result A) : oblivious (lift_result r).
Proof. destruct r; [apply oblivious_ret | apply oblivious_raise]. Qed.

Lemma oblivious_lift_status (r : option exn) : oblivious (lift_status r).
Proof. destruct r; [apply oblivious_raise | apply oblivious_ret]. Qed.

Lemma oblivious_when (b : bool) (m : M unit) : oblivious m -> oblivious (when b m).
Proof. destruct b; [done | intros _; apply oblivious_ret]. Qed.

Create HintDb oblivious.

#[global] Hint Resolve oblivious_ret oblivious_raise oblivious_emit
  oblivious_lift_result oblivious_lift_status oblivious_when : oblivious.

Lemma oblivious_run {A} (m : M A) :
  oblivious m -> emits m (run_blank m).1 (run_blank m).2 /\ no_exit (run_blank m).1.
Proof.
  intros (o & evs & Hm & Hne). unfold run_blank. rewrite (Hm blank). simpl. done.
Qed.

Section DriverFacts.

Context (w : World).

Lemma oblivious_do_glob parent pattern : oblivious (do_glob w parent pattern).
Proof. unfold do_glob. apply oblivious_bind; auto with oblivious. Qed.

Lemma emits_do_glob_ok parent pattern l :
  glob w parent pattern = Ok l ->
  emits (do_glob w parent pattern) (Ret l) [EvGlob parent pattern].
Proof.
  intros H. unfold do_glob. rewrite H.
  apply (emits_bind _ _ tt [_] _ []); [apply emits_emit | apply emits_ret].
Qed.

Lemma emits_do_glob_err parent pattern e :
  glob w parent pattern = Err e ->
  emits (do_glob w parent pattern) (Raise e) [EvGlob parent pattern].
Proof.
  intros H. unfold do_glob. rewrite H.
  apply (emits_bind _ _ tt [_] _ []); [apply emits_emit | apply emits_raise].
Qed.

Section Image.

Context (config : yaml) (cam_pos_orid : pose_table) (dem_file pos_ori_file : string)
        (ortho_dir : option string).

Lemma oblivious_image_body img :
  oblivious (image_body w config cam_pos_orid dem_file pos_ori_file ortho_dir img).
Proof.
  unfold image_body, logger_info.
  repeat (first [ apply oblivious_bind; [ | intros ? ] | apply oblivious_when
                | solve [ auto with oblivious ] ]).
Qed.

Lemma image_body_emits img :
  emits (image_body w config cam_pos_orid dem_file pos_ori_file ortho_dir img)
        (image_run w config cam_pos_orid dem_file pos_ori_file ortho_dir img).1
        (image_run w config cam_pos_orid dem_file pos_ori_file ortho_dir img).2
  /\ no_exit (image_run w config cam_pos_orid dem_file pos_ori_file ortho_dir img).1.
Proof. apply oblivious_run, oblivious_image_body. Qed.

(** One image: the inner [try] statement always completes, with the
    image's status, whatever the body raised. *)
Lemma process_image_emits img :
  emits (process_image w config cam_pos_orid dem_file pos_ori_file ortho_dir img)
        (Ret (img, image_status_of w config cam_pos_orid dem_file pos_ori_file ortho_dir img))
        (image_events w config cam_pos_orid dem_file pos_ori_file ortho_dir img).
Proof.
  destruct (image_body_emits img) as [Hb Hne].
  unfold image_status_of, image_events.
  destruct (image_run _ _ _ _ _ _ _).1 as [[] | e | c]; [| | done]; intros s.
  - unfold process_image, try_except, mbind, M_bind. rewrite Hb. simpl.
    by rewrite app_nil_r.
  - unfold process_image, try_except, mbind, M_bind. rewrite Hb. simpl.
    by rewrite app_assoc.
Qed.

Lemma for_each_images_emits (imgs : list path) :
  emits (for_each imgs (process_image w config cam_pos_orid dem_file pos_ori_file ortho_dir))
        (Ret (map (fun img => (img, image_status_of w config cam_pos_orid dem_file
                                      pos_ori_file ortho_dir img)) imgs))
        (concat (map (image_events w config cam_pos_orid dem_file pos_ori_file ortho_dir)
                     imgs)).
Proof.
  induction imgs as [| img imgs IH]; simpl.
  - apply emits_ret.
  - eapply emits_bind; [apply process_image_emits |].
    rewrite <- (app_nil_r (concat _)).
    eapply emits_bind; [apply IH | apply emits_ret].
Qed.

End Image.

(** *** [_check_args] *)

Lemma first_bad_checked src :
  first_bad w src = None -> checked w src = src /\ forallb (pattern_ok w) src = true.
Proof.
  induction src as [| spec src IH]; simpl; [done |].
  destruct (pattern_ok w spec); [| done].
  intros H. destruct (IH H) as [-> ->]. done.
Qed.

Lemma forallb_first_bad src :
  forallb (pattern_ok w) src = true -> first_bad w src = None.
Proof.
  induction src as [| spec src IH]; simpl; [done |].
  destruct (pattern_ok w spec); [done | done].
Qed.

Lemma check_loop_emits src :
  emits
    (for_each src (fun src_im_file_spec =>
       let src_im_file_path := Path src_im_file_spec in
       found ← do_glob w (path_parent src_im_file_path) (path_name src_im_file_path);
       when (Nat.eqb (length found) 0)
         (raise (Exception
            ("Could not find any source image(s) matching " +:+ src_im_file_spec)))))
    (match first_bad w src with
     | Some p => Raise (pattern_error w p)
     | None => Ret (map (fun _ => tt) src)
     end)
    (map glob_event (checked w src)).
Proof.
  induction src as [| spec src IH]; simpl.
  - apply emits_ret.
  - unfold pattern_ok. destruct (matches w spec) as [[| f l] | e] eqn:Hm.
    + apply emits_bind_raise.
      eapply emits_as; [eapply emits_bind; [by apply emits_do_glob_ok | apply emits_raise] | |].
      * unfold pattern_error. by rewrite Hm.
      * done.
    + eapply emits_as.
      { eapply emits_bind.
        { eapply emits_bind; [by apply emits_do_glob_ok | apply emits_ret]. }
        instantiate (1 := map glob_event (checked w src)).
        instantiate (1 := match first_bad w src with
                          | Some p => Raise (pattern_error w p)
                          | None => Ret (map (fun _ => tt) (spec :: src))
                          end).
        destruct (first_bad w src).
        - by apply emits_bind_raise.
        - eapply emits_as; [eapply emits_bind; [apply IH | apply emits_ret] | done |].
          by rewrite app_nil_r. }
      * done.
      * done.
    + apply emits_bind_raise. apply emits_bind_raise.
      eapply emits_as; [by apply emits_do_glob_err | |].
      * unfold pattern_error. by rewrite Hm.
      * done.
Qed.

Lemma check_args_run src dem pos od s :
  _check_args w src dem pos od s
  = (match check_failure w (fs s) src dem pos od with
     | Some e => Raise e
     | None => Ret tt
     end,
     MkState (fs s) (trace s ++ check_events w (fs s) src dem pos od)).
Proof.
  unfold _check_args, check_failure, check_events. unfold mbind at 1, M_bind at 1.
  rewrite check_loop_emits.
  destruct (first_bad w src) as [p |]; [by rewrite app_nil_r |].
  unfold node_exists, is_directory, path_exists, path_is_dir, lookup_node,
    logger_warning, os_mkdir, when, raise, emit, mbind, M_bind, mret, M_ret; simpl.
  destruct (fs s !! path_str (Path dem)); simpl; [| by rewrite <- !app_assoc].
  destruct (fs s !! path_str (Path pos)); simpl; [| by rewrite <- !app_assoc].
  destruct od as [d |]; simpl; [| by rewrite <- !app_assoc].
  destruct (fs s !! path_str (Path d)) as [[|] |] eqn:Hd; simpl; rewrite ?Hd;
    by rewrite <- !app_assoc.
Qed.

Lemma check_events_pass files src dem pos od :
  check_failure w files src dem pos od = None ->
  check_events w files src dem pos od = validation_events src dem pos od.
Proof.
  unfold check_failure, check_events, validation_events.
  destruct (first_bad w src) eqn:Hb; [done |].
  apply first_bad_checked in Hb as [-> _].
  destruct (node_exists files dem); [| done].
  destruct (node_exists files pos); [| done].
  destruct od as [d |]; [| done]. by destruct (is_directory files d).
Qed.

(** [_check_args] creates nothing: whatever its arguments, it leaves the
    file system as it found it and never calls [os.mkdir]. *)
Lemma check_args_never_creates src dem pos od s :
  fs (_check_args w src dem pos od s).2 = fs s
  /\ forall d, ~ In (EvMkdir d) (check_events w (fs s) src dem pos od).
Proof.
  rewrite check_args_run. split; [done |].
  intros d. unfold check_events. intros [Hev | Hev]%in_app_iff.
  - by apply in_map_iff in Hev as (spec & ? & _).
  - destruct (first_bad w src); [done |].
    destruct (node_exists (fs s) dem), (node_exists (fs s) pos), od as [d' |];
      try destruct (is_directory (fs s) d'); simpl in Hev; intuition discriminate.
Qed.

(** *** The image loop of [main] *)

Section Loop.

Context (config : yaml) (cam_pos_orid : pose_table) (dem_file pos_ori_file : string)
        (ortho_dir : option string).

Lemma loop_emits src :
  forallb (pattern_ok w) src = true ->
  emits
    (for_each src (fun src_im_file_spec =>
       let src_im_file_path := Path src_im_file_spec in
       files ← do_glob w (path_parent src_im_file_path) (path_name src_im_file_path);
       for_each files
         (process_image w config cam_pos_orid dem_file pos_ori_file ortho_dir)))
    (Ret (map (fun spec =>
                 map (fun img => (img, image_status_of w config cam_pos_orid dem_file
                                         pos_ori_file ortho_dir img))
                     (match matches w spec with Ok l => l | Err _ => [] end))
              src))
    (loop_events w config cam_pos_orid dem_file pos_ori_file ortho_dir src).
Proof.
  induction src as [| spec src IH]; simpl; [intros _; apply emits_ret |].
  intros [Hok Hsrc]%andb_prop. unfold pattern_ok in Hok.
  destruct (matches w spec) as [l | e] eqn:Hm; [| done].
  eapply emits_as.
  { eapply emits_bind.
    { eapply emits_bind; [by apply emits_do_glob_ok | apply for_each_images_emits]. }
    eapply emits_bind; [by apply IH | apply emits_ret]. }
  - done.
  - unfold loop_events. simpl. rewrite Hm, app_nil_r. done.
Qed.

Lemma loop_report_concat src :
  concat (map (fun spec =>
                 map (fun img => (img, image_status_of w config cam_pos_orid dem_file
                                         pos_ori_file ortho_dir img))
                     (match matches w spec with Ok l => l | Err _ => [] end))
              src)
  = loop_report w config cam_pos_orid dem_file pos_ori_file ortho_dir src.
Proof.
  unfold loop_report, resolved.
  induction src as [| spec src IH]; simpl; [done |].
  by rewrite IH, map_app.
Qed.

End Loop.

End DriverFacts.

(** ** Running the primitives *)

Lemma run_bind {A B} (m : M A) (k : A -> M B) s :
  (m ≫= k) s
  = match m s with
    | (Ret a, s') => k a s'
    | (Raise e, s') => (Raise e, s')
    | (SysExit c, s') => (SysExit c, s')
    end.
Proof. done. Qed.

Lemma run_path_exists p s :
  path_exists p s
  = (Ret (match fs s !! path_str p with Some _ => true | None => false end),
     MkState (fs s) (trace s ++ [EvExists p])).
Proof. done. Qed.

Lemma run_open_read p s :
  open_read p s
  = match fs s !! path_str p with
    | Some (File c) => (Ret c, s)
    | Some Dir => (Raise (PyExc "IsADirectoryError"
                            ("[Errno 21] Is a directory: '" +:+ path_str p +:+ "'")), s)
    | None => (Raise (PyExc "FileNotFoundError"
                        ("[Errno 2] No such file or directory: '" +:+ path_str p +:+ "'")),
               s)
    end.
Proof.
  unfold open_read, lookup_node. rewrite run_bind.
  by destruct (fs s !! path_str p) as [[] |].
Qed.

Lemma run_open_write p c s :
  open_write p c s
  = match write_failure (fs s) p with
    | Some e => (Raise e, s)
    | None =>
        (Ret tt, MkState (<[path_str p := File c]> (fs s)) (trace s ++ [EvWrite p c]))
    end.
Proof.
  unfold open_write, get_files. rewrite run_bind.
  by destruct (write_failure (fs s) p).
Qed.

Lemma blocked_dirs files name dirs :
  List.Forall (fun a => files !! path_str a = Some Dir) dirs ->
  blocked files name dirs = None.
Proof. induction 1 as [| a dirs Ha _ IH]; simpl; [done | by rewrite Ha]. Qed.

Lemma blocked_below files name above d below :
  List.Forall (fun a => files !! path_str a = Some Dir) above ->
  blocked files name (above ++ d :: below) = blocked files name (d :: below).
Proof. induction 1 as [| a dirs Ha _ IH]; simpl; [done | by rewrite Ha]. Qed.


Lemma run_emit e s : emit e s = (Ret tt, MkState (fs s) (trace s ++ [e])).
Proof. done. Qed.

Lemma run_logger_info msg s :
  logger_info msg s = (Ret tt, MkState (fs s) (trace s ++ [EvLog INFO msg])).
Proof. done. Qed.

Lemma run_logger_error msg s :
  logger_error msg s = (Ret tt, MkState (fs s) (trace s ++ [EvLog ERROR msg])).
Proof. done. Qed.

Lemma run_raise {A} e s : @raise A e s = (Raise e, s).
Proof. done. Qed.

Lemma run_ret {A} (a : A) s : (mret a : M A) s = (Ret a, s).
Proof. done. Qed.

Ltac run_steps :=
  repeat first
    [ rewrite run_bind
    | rewrite run_path_exists
    | rewrite run_open_read
    | rewrite run_open_write
    | rewrite run_emit
    | rewrite run_logger_info
    | rewrite run_logger_error
    | rewrite run_raise
    | rewrite run_ret
    | rewrite check_args_run
    | match goal with H : ?l = _ |- context [?l] => rewrite H end
    | progress simpl ].

Ltac run_done :=
  unfold error_event, sys_exit; simpl; rewrite <- ?app_assoc; simpl; done.

(** ** [main] is [main_view] *)

Section MainRun.

Context (w : World).

Lemma check_failure_none files src dem pos od :
  check_failure w files src dem pos od = None ->
  checked w src = src /\ forallb (pattern_ok w) src = true.
Proof.
  unfold check_failure. destruct (first_bad w src) eqn:Hb; [done |].
  intros _. by apply first_bad_checked.
Qed.

Lemma emits_levels v :
  emits (match v with
         | Some v =>
             emit (EvSetLevel "command_line" (10 * v));;
             emit (EvSetLevel "simple_ortho" (10 * v))
         | None => mret tt
         end)
        (Ret tt) (level_events v).
Proof.
  destruct v as [v |]; simpl; [| apply emits_ret].
  apply (emits_bind _ _ tt [_] _ [_]); apply emits_emit.
Qed.

Lemma main_run src dem pos od rc wc v s :
  main w src dem pos od rc wc v s = main_view w src dem pos od rc wc v s.
Proof.
  unfold main, main_view, try_except, fatal.
  rewrite run_bind, emits_levels.
  destruct (fs s !! path_str (config_path w rc)) as [[text |] |] eqn:Hcfg; run_steps;
    [| run_done | run_done].
  destruct (yaml_safe_load w text) as [config | e] eqn:Hy; run_steps; [| run_done].
  destruct wc as [f |]; run_steps.
  - destruct (write_failure (fs s) (Path f)) as [e |] eqn:Hout; run_steps; run_done.
  - destruct (check_failure w (fs s) src dem pos od) as [e |] eqn:Hchk; run_steps;
      [run_done |].
    rewrite (check_events_pass _ _ _ _ _ _ Hchk).
    destruct (check_failure_none _ _ _ _ _ Hchk) as [_ Hok].
    destruct (read_csv w pos) as [table | e] eqn:Hcsv; run_steps; [| run_done].
    rewrite (loop_emits w config table dem pos od src Hok). run_steps.
    rewrite loop_report_concat. run_done.
Qed.

End MainRun.

Ltac image_norm :=
  cbv beta iota zeta delta
    [image_run run_blank image_body mbind M_bind mret M_ret when raise emit
     lift_result lift_status logger_info blank fst snd trace fs app negb].

(** Membership of an event in an explicit list of events. *)
Ltac in_events H :=
  simpl in H; repeat (destruct H as [H | H]); try discriminate H; try contradiction.

Ltac image_split :=
  image_norm;
  repeat (match goal with
          | |- context [match ?r with Ok _ => _ | Err _ => _ end] => destruct r eqn:?
          | |- context [match ?r with Some _ => _ | None => _ end] => destruct r eqn:?
          | |- context [if ?b then _ else _] => destruct b eqn:?
          end; image_norm).

Section ImageFacts.

Context (w : World) (config : yaml) (cam_pos_orid : pose_table)
        (dem_file pos_ori_file : string) (ortho_dir : option string).

Abbreviation irun := (image_run w config cam_pos_orid dem_file pos_ori_file ortho_dir).
Abbreviation istatus := (image_status_of w config cam_pos_orid dem_file pos_ori_file ortho_dir).
Abbreviation ievents := (image_events w config cam_pos_orid dem_file pos_ori_file ortho_dir).

(** A stem that the pose table lacks: the body raises at once. *)
Lemma image_run_pose_missing img :
  index_contains cam_pos_orid (path_stem img) = false ->
  irun img = (Raise (Exception ("Could not find " +:+ path_stem img +:+ " in "
                                  +:+ pos_ori_file)), []).
Proof. intros H. image_norm. rewrite H. by image_norm. Qed.

Lemma loc_unique img r :
  rows_of cam_pos_orid (path_stem img) = [r] ->
  index_contains cam_pos_orid (path_stem img) = true
  /\ loc cam_pos_orid (path_stem img) = Ok (Series r).
Proof.
  intros H. split; [| unfold loc; by rewrite H].
  unfold rows_of in H. unfold index_contains.
  induction cam_pos_orid as [| [k v] t IH]; simpl in *; [done |].
  destruct (String.eqb k (path_stem img)); [done | by apply IH].
Qed.

(** Every camera built for an image with a single pose record. *)
Lemma image_camera_pose img r c :
  rows_of cam_pos_orid (path_stem img) = [r] ->
  In (EvCamera c) (ievents img) ->
  position c = Arr1 [easting r; northing r; altitude r]
  /\ orientation c = Arr1 [deg2rad (omega r); deg2rad (phi r); deg2rad (kappa r)].
Proof.
  intros [Hidx Hloc]%loc_unique. unfold image_events.
  image_norm. rewrite Hidx, Hloc.
  image_split; intros H; in_events H; injection H as <-; done.
Qed.

(** ... and it is built as soon as the raster opens and the configuration
    has the camera's two entries. *)
Lemma image_camera_built img r info cc fl ss :
  rows_of cam_pos_orid (path_stem img) = [r] ->
  rio_open w img = Ok info ->
  getitem config "camera" = Ok cc ->
  getitem cc "focal_len" = Ok fl ->
  getitem cc "sensor_size" = Ok ss ->
  In (EvCamera (MkCamera fl ss [np_float64 (width info); np_float64 (height info)]
                  (transform info)
                  (Arr1 [easting r; northing r; altitude r])
                  (Arr1 [deg2rad (omega r); deg2rad (phi r); deg2rad (kappa r)])))
     (ievents img).
Proof.
  intros [Hidx Hloc]%loc_unique Hrio Hcc Hfl Hss. unfold image_events.
  image_norm. rewrite Hidx, Hloc, Hrio, Hcc, Hfl, Hss.
  image_split; simpl; auto.
Qed.

(** Overviews are built only after [orthorectify] returned for the same
    object, and only under a true [build_ovw]. *)
Lemma image_overviews img oi :
  In (EvBuildOverviews oi) (ievents img) ->
  src_im_filename oi = img
  /\ orthorectify w oi = None
  /\ (exists oc flag, getitem config "ortho" = Ok oc
                      /\ getitem oc "build_ovw" = Ok flag /\ truthy flag = true)
  /\ exists pre post, ievents img = pre ++ EvOrthorectify oi :: post
                      /\ In (EvBuildOverviews oi) post.
Proof.
  unfold image_events.
  image_split; intros H; in_events H; injection H as <-;
    (split; [done |]); (split; [done |]); (split; [eauto |]).
  all: match goal with
       | |- exists pre post, ?a :: ?b :: ?c :: ?d :: ?e :: ?rest = _ /\ _ =>
           exists [a; b; c; d], rest; split; [done | simpl; auto 10]
       end.
Qed.

(** A failing [orthorectify] ends the image there. *)
Lemma image_orthorectify_raises img oi e :
  In (EvOrthorectify oi) (ievents img) ->
  orthorectify w oi = Some e ->
  istatus img = Skipped e /\ forall oi', ~ In (EvBuildOverviews oi') (ievents img).
Proof.
  unfold image_events, image_status_of.
  image_split; intros H; in_events H; injection H as <-; intros He;
    try congruence.
  all: split; [congruence | intros oi' H'; in_events H'].
Qed.

(** A failing [build_ortho_overviews] is the image's own failure too. *)
Lemma image_overviews_raise img oi e :
  In (EvBuildOverviews oi) (ievents img) ->
  build_ortho_overviews w oi = Some e ->
  istatus img = Skipped e.
Proof.
  unfold image_events, image_status_of.
  image_split; intros H; in_events H; injection H as <-; intros He; congruence.
Qed.

(** Without [config['camera']] or [config['ortho']] no image gets as far
    as the engine's [OrthoIm], and each one is skipped. *)
Lemma image_needs_config img :
  (exists e, getitem config "camera" = Err e) \/ (exists e, getitem config "ortho" = Err e) ->
  (exists e, istatus img = Skipped e)
  /\ forall ev, In ev (ievents img) ->
       match ev with
       | EvOrthoIm _ | EvOrthorectify _ | EvBuildOverviews _ => False
       | _ => True
       end.
Proof.
  unfold image_events, image_status_of.
  intros [[e He] | [e He]]; image_norm; rewrite ?He.
  all: image_split; (split; [eauto |]); try congruence.
  all: intros ev H; in_events H; by subst.
Qed.

(** With the pose known and the raster readable, a missing
    [config['camera']] is what the image is skipped for. *)
Lemma image_camera_missing img e info :
  index_contains cam_pos_orid (path_stem img) = true ->
  rio_open w img = Ok info ->
  getitem config "camera" = Err e ->
  istatus img = Skipped e.
Proof.
  intros Hidx Hrio He. unfold image_status_of. image_norm.
  rewrite Hidx, Hrio, He. image_norm.
  unfold loc, index_contains, rows_of in *.
  destruct (map snd _) as [| r [| r' rs]] eqn:Hrows; image_norm; [| done | done].
  exfalso. clear -Hidx Hrows.
  induction cam_pos_orid as [| [k v] t IH]; simpl in *; [done |].
  destruct (String.eqb k (path_stem img)); [done | by apply IH].
Qed.

(** One image's events: the raster is opened, the engine is called, and
    lines are logged; nothing else. *)
Lemma image_events_kind img ev :
  In ev (ievents img) ->
  match ev with
  | EvRioOpen _ | EvCamera _ | EvOrthoIm _ | EvOrthorectify _ | EvBuildOverviews _
  | EvLog _ _ => True
  | _ => False
  end.
Proof.
  unfold image_events. image_split; intros H; in_events H; by subst.
Qed.

End ImageFacts.

(** ** Runs of [main] that reach the image loop *)

Section LoopFacts.

Context (w : World).

Lemma validations_check_failure files src dem pos od :
  validations_pass w files src dem pos od = true
  <-> check_failure w files src dem pos od = None.
Proof.
  unfold validations_pass, check_failure. split.
  - intros [[[Hsrc Hdem]%andb_prop Hpos]%andb_prop Hod]%andb_prop.
    rewrite (forallb_first_bad w src Hsrc), Hdem, Hpos. simpl.
    destruct od as [d |]; [by rewrite Hod | done].
  - destruct (first_bad w src) eqn:Hb; [done |].
    apply first_bad_checked in Hb as [_ ->].
    destruct (node_exists files dem); [| done].
    destruct (node_exists files pos); [| done].
    destruct od as [d |]; [| done]. by destruct (is_directory files d).
Qed.

Lemma main_loop_run src dem pos od rc v s text config table :
  fs s !! path_str (config_path w rc) = Some (File text) ->
  yaml_safe_load w text = Ok config ->
  validations_pass w (fs s) src dem pos od = true ->
  read_csv w pos = Ok table ->
  main w src dem pos od rc None v s
  = (Ret (loop_report w config table dem pos od src),
     MkState (fs s)
       (trace s ++ (level_events v ++ [EvExists (config_path w rc)])
          ++ validation_events src dem pos od ++ [EvReadCsv pos]
          ++ loop_events w config table dem pos od src)).
Proof.
  intros Hcfg Hy Hval%validations_check_failure Hcsv.
  rewrite main_run. unfold main_view. by rewrite Hcfg, Hy, Hval, Hcsv.
Qed.

Section Report.

Context (config : yaml) (table : pose_table) (dem pos : string) (od : option string).

Lemma loop_report_images src :
  map fst (loop_report w config table dem pos od src) = resolved w src.
Proof.
  unfold loop_report. rewrite map_map. simpl. apply map_id.
Qed.

Lemma loop_report_status src img st :
  In (img, st) (loop_report w config table dem pos od src) ->
  In img (resolved w src) /\ st = image_status_of w config table dem pos od img.
Proof.
  unfold loop_report. intros (img' & [= -> ->] & Hin)%in_map_iff. done.
Qed.

Lemma loop_events_image src img ev :
  In img (resolved w src) ->
  In ev (image_events w config table dem pos od img) ->
  In ev (loop_events w config table dem pos od src).
Proof.
  unfold resolved, loop_events.
  induction src as [| spec src IH]; simpl; [done |].
  intros [Hin | Hin]%in_app_iff Hev.
  - right. apply in_app_iff. left. apply in_concat.
    exists (image_events w config table dem pos od img). split; [| done].
    by apply in_map.
  - right. apply in_app_iff. right. by apply IH.
Qed.

(** A skipped image has its ERROR line in the events of the loop. *)
Lemma loop_skipped_logged src img e :
  In (img, Skipped e) (loop_report w config table dem pos od src) ->
  In (EvLog ERROR ("Exception: " +:+ exn_str e))
     (loop_events w config table dem pos od src).
Proof.
  intros [Himg Hst]%loop_report_status.
  apply (loop_events_image src img); [done |].
  revert Hst. unfold image_status_of, image_events, error_event.
  destruct (image_run _ _ _ _ _ _ _).1 as [u | e' | c]; try done.
  intros [= ->]. apply in_app_iff. right. by left.
Qed.

Lemma loop_events_inv src ev :
  In ev (loop_events w config table dem pos od src) ->
  (exists spec, ev = glob_event spec)
  \/ exists img, In img (resolved w src)
                 /\ In ev (image_events w config table dem pos od img).
Proof.
  unfold resolved, loop_events.
  induction src as [| spec src IH]; simpl; [done |].
  intros [<- | [Hin | Hin]%in_app_iff]; [by eauto | |].
  - right. apply in_concat in Hin as (evs & (img & <- & Himg)%in_map_iff & Hev).
    exists img. split; [| done]. apply in_app_iff. by left.
  - destruct (IH Hin) as [? | (img & Himg & Hev)]; [by left |].
    right. exists img. split; [| done]. apply in_app_iff. by right.
Qed.

End Report.

(** Events before the image loop are no image events. *)
Lemma level_events_not_image v ev : In ev (level_events v) -> is_image_event ev = false.
Proof. destruct v; intros H; in_events H; by subst. Qed.

Lemma glob_events_not_image l ev : In ev (map glob_event l) -> is_image_event ev = false.
Proof. by intros (spec & <- & _)%in_map_iff. Qed.

Lemma check_events_not_image files src dem pos od ev :
  In ev (check_events w files src dem pos od) -> is_image_event ev = false.
Proof.
  unfold check_events. intros [Hev | Hev]%in_app_iff.
  - by apply glob_events_not_image in Hev.
  - destruct (first_bad w src); [done |].
    destruct (node_exists files dem), (node_exists files pos), od as [d |];
      try destruct (is_directory files d); in_events Hev; by subst.
Qed.

Lemma validation_events_not_image src dem pos od ev :
  In ev (validation_events src dem pos od) -> is_image_event ev = false.
Proof.
  unfold validation_events. intros [Hev | Hev]%in_app_iff.
  - by apply glob_events_not_image in Hev.
  - destruct od; in_events Hev; by subst.
Qed.

(** What precedes the image loop in a run that reaches it. *)
Lemma preamble_not_image v cfg src dem pos od ev :
  In ev ((level_events v ++ [EvExists cfg]) ++ validation_events src dem pos od
           ++ [EvReadCsv pos]) ->
  is_image_event ev = false.
Proof.
  intros [[Hev | Hev]%in_app_iff | [Hev | Hev]%in_app_iff]%in_app_iff.
  - by apply level_events_not_image in Hev.
  - in_events Hev. by subst.
  - by apply validation_events_not_image in Hev.
  - in_events Hev. by subst.
Qed.

(** *** What changes the file system *)

Lemma level_events_keep v ev : In ev (level_events v) -> changes_fs ev = false.
Proof. destruct v; intros H; in_events H; by subst. Qed.

Lemma check_events_keep files src dem pos od ev :
  In ev (check_events w files src dem pos od) -> changes_fs ev = false.
Proof.
  unfold check_events. intros [Hev | Hev]%in_app_iff.
  - by apply in_map_iff in Hev as (spec & <- & _).
  - destruct (first_bad w src); [done |].
    destruct (node_exists files dem), (node_exists files pos), od as [d |];
      try destruct (is_directory files d); in_events Hev; by subst.
Qed.

Lemma validation_events_keep src dem pos od ev :
  In ev (validation_events src dem pos od) -> changes_fs ev = false.
Proof.
  unfold validation_events. intros [Hev | Hev]%in_app_iff.
  - by apply in_map_iff in Hev as (spec & <- & _).
  - destruct od; in_events Hev; by subst.
Qed.

Lemma loop_events_keep config table dem pos od src ev :
  In ev (loop_events w config table dem pos od src) -> changes_fs ev = false.
Proof.
  intros [[spec ->] | (img & _ & Hev)]%loop_events_inv; [done |].
  apply image_events_kind in Hev. by destruct ev.
Qed.

(** Whatever [main] does to the file system, it does by dumping the loaded
    configuration to the write-config target, after the configuration has
    been found and loaded, and on its way to [exit(0)]; [os.mkdir] is never
    called. *)
Lemma main_changes_fs_only_by_write src dem pos od rc wc v s o files evs ev :
  main w src dem pos od rc wc v s = (o, MkState files (trace s ++ evs)) ->
  In ev evs ->
  changes_fs ev = true ->
  exists text config f,
    fs s !! path_str (config_path w rc) = Some (File text)
    /\ yaml_safe_load w text = Ok config
    /\ wc = Some f /\ ev = EvWrite (Path f) (yaml_dump w config) /\ o = SysExit 0.
Proof.
  rewrite main_run. unfold main_view, fatal.
  assert (Hpre : forall ev', In ev' (level_events v ++ [EvExists (config_path w rc)]) ->
                             changes_fs ev' = false).
  { intros ev' [Hev | Hev]%in_app_iff;
      [by apply level_events_keep in Hev | in_events Hev; by subst]. }
  assert (Hfatal : forall before e,
            (forall ev', In ev' before -> changes_fs ev' = false) ->
            In ev (before ++ [error_event e]) -> changes_fs ev = false).
  { intros before e Hb [Hev | Hev]%in_app_iff; [by apply Hb | in_events Hev; by subst]. }
  destruct (fs s !! path_str (config_path w rc)) as [[text |] |] eqn:Hcfg.
  2, 3: intros [= <- <- <-%app_inv_head] Hev%(Hfatal _ _ Hpre); congruence.
  destruct (yaml_safe_load w text) as [config | e] eqn:Hy.
  2: intros [= <- <- <-%app_inv_head] Hev%(Hfatal _ _ Hpre); congruence.
  destruct wc as [f |].
  - destruct (write_failure (fs s) (Path f)) as [e |];
      intros [= <- <- <-%app_inv_head] Hev;
      [apply (Hfatal _ _ Hpre) in Hev; congruence |].
    apply in_app_iff in Hev as [Hev%Hpre | Hev]; [congruence |].
    in_events Hev; subst; [| done].
    intros _; by exists text, config, f.
  - destruct (check_failure w (fs s) src dem pos od) as [e |] eqn:Hchk.
    + intros [= <- <- <-%app_inv_head] Hev Hch. exfalso.
      apply Hfatal in Hev; [congruence |].
      intros ev' [Hev' | Hev']%in_app_iff;
        [by apply Hpre | by apply check_events_keep in Hev'].
    + assert (Hval : forall ev',
                In ev' ((level_events v ++ [EvExists (config_path w rc)])
                          ++ validation_events src dem pos od ++ [EvReadCsv pos]) ->
                changes_fs ev' = false).
      { intros ev' [Hev' | [Hev' | Hev']%in_app_iff]%in_app_iff.
        - by apply Hpre.
        - by apply validation_events_keep in Hev'.
        - in_events Hev'. by subst. }
      destruct (read_csv w pos) as [table | e].
      * intros [= <- <- <-%app_inv_head] Hev Hch. exfalso.
        apply in_app_iff in Hev as [Hev | [Hev | [<- | Hev]]%in_app_iff].
        -- apply Hpre in Hev. congruence.
        -- apply validation_events_keep in Hev. congruence.
        -- done.
        -- apply loop_events_keep in Hev. congruence.
      * intros [= <- <- <-%app_inv_head] Hev Hch. exfalso.
        apply Hfatal in Hev; [congruence | exact Hval].
Qed.

End LoopFacts.

(** * The claims *)

Section Claims.

Context (w : World).

(** C1 (the code departs from the claim).  An output directory that does not
    exist is never created: with every other validation passing,
    [_check_args] raises "is not a valid directory" for it, and leaves the
    file system and the log untouched; the [os.mkdir] branch cannot be
    reached, since a path that is a directory exists. *)
Theorem C1_missing_ortho_dir_is_rejected src dem pos d s :
  fs s !! path_str (Path d) = None ->
  validations_pass w (fs s) src dem pos None = true ->
  _check_args w src dem pos (Some d) s
  = (Raise (Exception ("Ortho directory " +:+ path_str (Path d)
                         +:+ " is not a valid directory")),
     MkState (fs s)
       (trace s ++ map glob_event src
          ++ [EvExists (Path dem); EvExists (Path pos); EvIsDir (Path d)])).
Proof.
  intros Hd Hval. rewrite check_args_run.
  unfold validations_pass in Hval. rewrite andb_true_r in Hval.
  apply andb_prop in Hval as [[Hsrc Hdem]%andb_prop Hpos].
  pose proof (forallb_first_bad w src Hsrc) as Hbad.
  destruct (first_bad_checked w src Hbad) as [Hchk _].
  unfold check_failure, check_events, is_directory.
  by rewrite Hbad, Hchk, Hdem, Hpos, Hd.
Qed.

(** C2 (amended).  In a run that reaches the image loop, a configuration
    without [camera] or without [ortho] is no batch-fatal error: the failed
    lookup is raised inside each image's own [try], so the run returns
    normally, every resolved image ends [Skipped] with its failure logged
    as an ERROR line by the image's own handler, none gets as far as the
    engine's [OrthoIm], and an image whose pose is known and whose raster
    opens is skipped for the missing [camera] itself. *)
Theorem C2_absent_config_section_skips_each_image
    src dem pos od rc v s text config table :
  fs s !! path_str (config_path w rc) = Some (File text) ->
  yaml_safe_load w text = Ok config ->
  validations_pass w (fs s) src dem pos od = true ->
  read_csv w pos = Ok table ->
  (exists e, getitem config "camera" = Err e)
  \/ (exists e, getitem config "ortho" = Err e) ->
  exists report evs,
    main w src dem pos od rc None v s = (Ret report, MkState (fs s) (trace s ++ evs))
    /\ map fst report = resolved w src
    /\ (forall img st,
          In (img, st) report ->
          exists e, st = Skipped e
                    /\ In (EvLog ERROR ("Exception: " +:+ exn_str e)) evs)
    /\ (forall ev, In ev evs ->
          match ev with
          | EvOrthoIm _ | EvOrthorectify _ | EvBuildOverviews _ => False
          | _ => True
          end)
    /\ (forall e img st info,
          getitem config "camera" = Err e ->
          In (img, st) report ->
          index_contains table (path_stem img) = true ->
          rio_open w img = Ok info ->
          st = Skipped e).
Proof.
  intros Hcfg Hy Hval Hcsv Habs. eexists _, _.
  split; [by apply (main_loop_run w src dem pos od rc v s text config table) |].
  split; [apply loop_report_images |].
  split; [| split].
  - intros img st Hin. pose proof Hin as [_ ->]%loop_report_status.
    destruct (image_needs_config w config table dem pos od img Habs) as [[e He] _].
    exists e. split; [done |]. rewrite He in Hin.
    rewrite !app_assoc. apply in_app_iff. right.
    by apply (loop_skipped_logged w config table dem pos od src img).
  - rewrite !app_assoc, <- (app_assoc _ _ [EvReadCsv pos]).
    intros ev [Hev | Hev]%in_app_iff.
    + apply preamble_not_image in Hev. by destruct ev.
    + apply loop_events_inv in Hev as [[spec ->] | (img & _ & Hev)]; [done |].
      destruct (image_needs_config w config table dem pos od img Habs) as [_ H].
      by apply H.
  - intros e img st info He [_ ->]%loop_report_status Hidx Hrio.
    by apply (image_camera_missing w config table dem pos od img e info).
Qed.

(** C3 (amended).  The images a run processes are the matches of each
    pattern, pattern after pattern in argument order, with no
    deduplication: each match of each pattern reaches one terminal state,
    so a file matched by several patterns is processed once per pattern,
    and when no file is matched twice each is processed once. *)
Theorem C3_each_match_processed_once
    src dem pos od rc v s text config table :
  fs s !! path_str (config_path w rc) = Some (File text) ->
  yaml_safe_load w text = Ok config ->
  validations_pass w (fs s) src dem pos od = true ->
  read_csv w pos = Ok table ->
  exists report evs,
    main w src dem pos od rc None v s = (Ret report, MkState (fs s) (trace s ++ evs))
    /\ map fst report
       = concat (map (fun spec => match matches w spec with
                                  | Ok l => l
                                  | Err _ => []
                                  end) src)
    /\ length report = length (resolved w src)
    /\ (List.NoDup (resolved w src) -> List.NoDup (map fst report)).
Proof.
  intros Hcfg Hy Hval Hcsv. eexists _, _.
  split; [by apply (main_loop_run w src dem pos od rc v s text config table) |].
  split; [apply loop_report_images |].
  split; [| by rewrite loop_report_images].
  by rewrite <- (loop_report_images w config table dem pos od src), length_map.
Qed.


(** C5.  In a run that reaches the image loop, every resolved image has
    its terminal state in the report and the run returns; an image whose
    stem the pose table lacks is [Skipped] for exactly that, the error
    caught and logged by the image's own handler. *)
Theorem C5_missing_pose_skips_one_image
    src dem pos od rc v s text config table :
  fs s !! path_str (config_path w rc) = Some (File text) ->
  yaml_safe_load w text = Ok config ->
  validations_pass w (fs s) src dem pos od = true ->
  read_csv w pos = Ok table ->
  exists report evs,
    main w src dem pos od rc None v s = (Ret report, MkState (fs s) (trace s ++ evs))
    /\ map fst report = resolved w src
    /\ forall img,
         In img (resolved w src) ->
         index_contains table (path_stem img) = false ->
         let ex := Exception ("Could not find " +:+ path_stem img +:+ " in " +:+ pos) in
         (forall st, In (img, st) report -> st = Skipped ex)
         /\ In (img, Skipped ex) report
         /\ In (EvLog ERROR ("Exception: " +:+ exn_str ex)) evs.
Proof.
  intros Hcfg Hy Hval Hcsv. eexists _, _.
  split; [by apply (main_loop_run w src dem pos od rc v s text config table) |].
  split; [apply loop_report_images |].
  intros img Himg Hidx ex.
  pose proof (image_run_pose_missing w config table dem pos od img Hidx) as Hrun.
  assert (Hst : image_status_of w config table dem pos od img = Skipped ex)
    by (unfold image_status_of; by rewrite Hrun).
  split; [| split].
  - by intros st [_ ->]%loop_report_status.
  - unfold loop_report. apply in_map_iff. exists img. by rewrite Hst.
  - apply in_app_iff. right. apply in_app_iff. right. apply in_app_iff. right.
    apply (loop_events_image w config table dem pos od src img); [done |].
    unfold image_events. rewrite Hrun. simpl. by left.
Qed.

(** C6 (amended).  In a run that reaches input validation, the first
    supplied pattern that matches no file makes [main] fail before any
    image is processed: the exception names that pattern, is logged and
    is raised again; only the patterns up to it were expanded. *)
Theorem C6_first_unmatched_pattern_is_fatal
    pre p post dem pos od rc v s text config :
  fs s !! path_str (config_path w rc) = Some (File text) ->
  yaml_safe_load w text = Ok config ->
  forallb (pattern_ok w) pre = true ->
  matches w p = Ok [] ->
  let ex := Exception ("Could not find any source image(s) matching " +:+ p) in
  main w (pre ++ p :: post) dem pos od rc None v s
  = (Raise ex,
     MkState (fs s)
       (trace s ++ level_events v ++ [EvExists (config_path w rc)]
          ++ map glob_event (pre ++ [p])
          ++ [EvLog ERROR ("Exception: " +:+ exn_str ex)])).
Proof.
  intros Hcfg Hy Hpre Hp ex.
  assert (Hbad : first_bad w (pre ++ p :: post) = Some p
                 /\ checked w (pre ++ p :: post) = pre ++ [p]).
  { clear -Hpre Hp. induction pre as [| q pre IH]; simpl in *.
    - unfold pattern_ok. by rewrite Hp.
    - apply andb_prop in Hpre as [-> Hpre]. destruct (IH Hpre) as [-> ->]. done. }
  destruct Hbad as [Hbad Hchk].
  rewrite main_run. unfold main_view, check_failure, check_events, fatal.
  rewrite Hcfg, Hy, Hbad, Hchk. unfold pattern_error. rewrite Hp.
  by rewrite app_nil_r, <- !app_assoc.
Qed.

(** C7.  For an image whose stem has one record in the pose table,
    every camera the driver builds has position
    [[easting, northing, altitude]] and orientation
    [[omega, phi, kappa]], each angle taken through [np.pi * x / 180.];
    and that camera is built once the raster opens and the configuration
    has the camera's focal length and sensor size. *)
Theorem C7_camera_gets_position_and_radians
    config table dem pos od img r :
  rows_of table (path_stem img) = [r] ->
  exists st evs,
    (forall s, process_image w config table dem pos od img s
               = (Ret (img, st), MkState (fs s) (trace s ++ evs)))
    /\ (forall c, In (EvCamera c) evs ->
          position c = Arr1 [easting r; northing r; altitude r]
          /\ orientation c
             = Arr1 [(np_pi * omega r / 180)%float; (np_pi * phi r / 180)%float;
                     (np_pi * kappa r / 180)%float])
    /\ (forall info cc fl ss,
          rio_open w img = Ok info ->
          getitem config "camera" = Ok cc ->
          getitem cc "focal_len" = Ok fl ->
          getitem cc "sensor_size" = Ok ss ->
          In (EvCamera
                (MkCamera fl ss [np_float64 (width info); np_float64 (height info)]
                   (transform info)
                   (Arr1 [easting r; northing r; altitude r])
                   (Arr1 [(np_pi * omega r / 180)%float; (np_pi * phi r / 180)%float;
                          (np_pi * kappa r / 180)%float])))
             evs).
Proof.
  intros Hr. eexists _, _.
  split; [apply (process_image_emits w config table dem pos od img) |].
  split.
  - intros c Hc. by apply (image_camera_pose w config table dem pos od img r c).
  - intros info cc fl ss Hrio Hcc Hfl Hss.
    by apply (image_camera_built w config table dem pos od img r info cc fl ss).
Qed.

(** C8.  In every run of [main]: an image is opened or handed to the
    engine only if all four input validations have passed, and only after
    them (the pattern expansions and existence tests of [_check_args] come
    first in the trace, then the pose table is read); and when the run
    reaches the validations and one of them fails, the run ends there: the
    exception is logged as the last event and raised again, the file
    system is as it was, and no image was processed. *)
Theorem C8_validations_precede_images src dem pos od rc wc v s :
  exists o files evs,
    main w src dem pos od rc wc v s = (o, MkState files (trace s ++ evs))
    /\ ((exists ev, In ev evs /\ is_image_event ev = true) ->
        validations_pass w (fs s) src dem pos od = true
        /\ exists before rest,
             evs = before ++ validation_events src dem pos od
                     ++ EvReadCsv pos :: rest
             /\ forall ev, In ev before -> is_image_event ev = false)
    /\ (forall text config,
          fs s !! path_str (config_path w rc) = Some (File text) ->
          yaml_safe_load w text = Ok config ->
          wc = None ->
          validations_pass w (fs s) src dem pos od = false ->
          exists e before,
            o = Raise e /\ files = fs s
            /\ evs = before ++ [EvLog ERROR ("Exception: " +:+ exn_str e)]
            /\ forall ev, In ev before -> is_image_event ev = false).
Proof.
  assert (Hpre : forall ev, In ev (level_events v ++ [EvExists (config_path w rc)]) ->
                            is_image_event ev = false).
  { intros ev [Hev | Hev]%in_app_iff;
      [by apply level_events_not_image in Hev | in_events Hev; by subst]. }
  assert (Hfatal : forall e (P : Prop),
            (exists ev, In ev ((level_events v ++ [EvExists (config_path w rc)])
                                 ++ [error_event e])
                        /\ is_image_event ev = true) -> P).
  { intros e P (ev & [Hev | Hev]%in_app_iff & Him);
      [apply Hpre in Hev; congruence | in_events Hev; by subst]. }
  rewrite main_run. unfold main_view, fatal.
  destruct (fs s !! path_str (config_path w rc)) as [[text |] |] eqn:Hcfg.
  2, 3: eexists _, _, _; split; [done |]; split; [apply Hfatal | done].
  destruct (yaml_safe_load w text) as [config | e] eqn:Hy.
  2: eexists _, _, _; split; [done |]; split;
       [apply Hfatal | intros ? ? [= <-] ?; congruence].
  destruct wc as [f |].
  { destruct (write_failure (fs s) (Path f)) as [e |];
      eexists _, _, _; (split; [done |]); (split; [| done]);
      try apply Hfatal;
      intros (ev & [Hev | Hev]%in_app_iff & Him);
      try (apply Hpre in Hev; congruence);
      in_events Hev; by subst. }
  destruct (check_failure w (fs s) src dem pos od) as [e |] eqn:Hchk.
  - assert (Hval : validations_pass w (fs s) src dem pos od = false).
    { destruct (validations_pass w (fs s) src dem pos od) eqn:Hval; [| done].
      apply validations_check_failure in Hval. congruence. }
    assert (Hbefore : forall ev,
              In ev ((level_events v ++ [EvExists (config_path w rc)])
                       ++ check_events w (fs s) src dem pos od) ->
              is_image_event ev = false).
    { intros ev [Hev | Hev]%in_app_iff;
        [by apply Hpre | by apply check_events_not_image in Hev]. }
    eexists _, _, _. split; [done |]. split.
    + intros (ev & [Hev | Hev]%in_app_iff & Him);
        [apply Hbefore in Hev; congruence | in_events Hev; by subst].
    + intros text' config' [= <-] Hy' _ _. eexists _, _. done.
  - apply validations_check_failure in Hchk.
    destruct (read_csv w pos) as [table | e].
    + eexists _, _, _. split; [done |]. split; [| intros; congruence].
      intros _. split; [done |]. eexists _, _. split; [| exact Hpre]. done.
    + eexists _, _, _. split; [done |]. split; [| intros; congruence].
      intros (ev & [Hev | Hev]%in_app_iff & Him); [| in_events Hev; by subst].
      apply preamble_not_image in Hev. congruence.
Qed.

(** C9.  The configuration file is required before anything is written:
    when it does not exist (at the default location or at the path given),
    [main] with a write-config target fails with "Config file ... does
    not exist", logged and raised again, and the file system is left as it
    was. *)
Theorem C9_missing_config_precedes_write src dem pos od rc f v s :
  fs s !! path_str (config_path w rc) = None ->
  let ex := Exception ("Config file " +:+ path_str (config_path w rc)
                         +:+ " does not exist") in
  main w src dem pos od rc (Some f) v s
  = (Raise ex,
     MkState (fs s)
       (trace s ++ level_events v
          ++ [EvExists (config_path w rc);
              EvLog ERROR ("Exception: " +:+ exn_str ex)])).
Proof.
  intros Hcfg ex. rewrite main_run. unfold main_view, fatal. rewrite Hcfg.
  by rewrite <- !app_assoc.
Qed.

(** C10.  One image, in any state: the inner [try] returns with the
    image's status, so whatever is raised stays with the image; overviews
    are built only for the object [orthorectify] has returned for, after
    it, and only under a true [config['ortho']['build_ovw']]; when
    [orthorectify] raises, the image is skipped for it and no overview is
    built; when the overview builder raises, the image is skipped for it. *)
Theorem C10_overviews_only_after_orthorectify config table dem pos od img :
  exists st evs,
    (forall s, process_image w config table dem pos od img s
               = (Ret (img, st), MkState (fs s) (trace s ++ evs)))
    /\ (forall oi, In (EvBuildOverviews oi) evs ->
          src_im_filename oi = img
          /\ orthorectify w oi = None
          /\ (exists oc flag, getitem config "ortho" = Ok oc
                              /\ getitem oc "build_ovw" = Ok flag
                              /\ truthy flag = true)
          /\ exists before after, evs = before ++ EvOrthorectify oi :: after
                                  /\ In (EvBuildOverviews oi) after)
    /\ (forall oi e, In (EvOrthorectify oi) evs ->
          orthorectify w oi = Some e ->
          st = Skipped e /\ forall oi', ~ In (EvBuildOverviews oi') evs)
    /\ (forall oi e, In (EvBuildOverviews oi) evs ->
          build_ortho_overviews w oi = Some e ->
          st = Skipped e).
Proof.
  eexists _, _.
  split; [apply (process_image_emits w config table dem pos od img) |].
  split; [| split].
  - apply image_overviews.
  - apply image_orthorectify_raises.
  - apply image_overviews_raise.
Qed.

End Claims.

(** * The claims on the sample world *)

(** C1 on the sample world: the output directory [out] does not exist. *)
Lemma C1_witness :
  _check_args Sample.world ["*.tif"] "dem.tif" "pose.txt" (Some "out") Sample.init
  = (Raise (Exception ("Ortho directory " +:+ path_str (Path "out")
                         +:+ " is not a valid directory")),
     MkState (fs Sample.init)
       (trace Sample.init ++ map glob_event ["*.tif"]
          ++ [EvExists (Path "dem.tif"); EvExists (Path "pose.txt");
              EvIsDir (Path "out")])).
Proof.
  apply (C1_missing_ortho_dir_is_rejected Sample.world); reflexivity.
Defined.

(** C2 (amended) on the sample world, with an empty configuration. *)
Lemma C2_witness :
  exists report evs,
    main (Sample.world_with (YMap [])) ["*.tif"] "dem.tif" "pose.txt" None None None
      (Some 2) Sample.init
    = (Ret report, MkState (fs Sample.init) (trace Sample.init ++ evs))
    /\ report = [(Path "img001.tif", Skipped (KeyError "camera"));
                 (Path "img002.tif",
                  Skipped (Exception "Could not find img002 in pose.txt"))]
    /\ In (EvLog ERROR "Exception: 'camera'") evs
    /\ In (EvLog ERROR "Exception: Could not find img002 in pose.txt") evs.
Proof.
  destruct (C2_absent_config_section_skips_each_image
              (Sample.world_with (YMap [])) ["*.tif"] "dem.tif" "pose.txt" None None
              (Some 2) Sample.init Sample.config_text (YMap [])
              [("img001", Sample.img001)])
    as (report & evs & Hrun & _ & Hlog & _); [reflexivity .. | |].
  - left. exists (KeyError "camera"). reflexivity.
  - exists report, evs. split; [exact Hrun |].
    pose proof Hrun as Hrep. vm_compute in Hrep. injection Hrep as Hrep _.
    split; [by rewrite <- Hrep |].
    destruct (Hlog (Path "img001.tif") (Skipped (KeyError "camera")))
      as (e1 & [= <-] & Hin1); [rewrite <- Hrep; left; reflexivity |].
    destruct (Hlog (Path "img002.tif")
                (Skipped (Exception "Could not find img002 in pose.txt")))
      as (e2 & [= <-] & Hin2); [rewrite <- Hrep; right; left; reflexivity |].
    split; [exact Hin1 | exact Hin2].
Defined.

(** C2, as stated, fails: with [ortho] present and [camera] absent the
    run reaches the image loop, opens the image, skips it for the
    [KeyError], goes on to the next image and returns. *)
Lemma C2_counterexample :
  (main (Sample.world_with (YMap [(YStr "ortho", YMap [(YStr "build_ovw", YBool true)])]))
     ["*.tif"] "dem.tif" "pose.txt" None None None (Some 2) Sample.init).1
  = Ret [(Path "img001.tif", Skipped (KeyError "camera"));
         (Path "img002.tif", Skipped (Exception "Could not find img002 in pose.txt"))]
  /\ In (EvRioOpen (Path "img001.tif"))
        (trace (main (Sample.world_with
                        (YMap [(YStr "ortho", YMap [(YStr "build_ovw", YBool true)])]))
                  ["*.tif"] "dem.tif" "pose.txt" None None None (Some 2) Sample.init).2).
Proof. split; [vm_compute; reflexivity | vm_compute; tauto]. Qed.

(** C3 (amended) on the sample world: two patterns, one match each. *)
Lemma C3_witness :
  exists report evs,
    main Sample.world ["img001.tif"; "*2.tif"] "dem.tif" "pose.txt" None None None
      (Some 2) Sample.init
    = (Ret report, MkState (fs Sample.init) (trace Sample.init ++ evs))
    /\ map fst report = [Path "img001.tif"; Path "img002.tif"].
Proof.
  destruct (C3_each_match_processed_once
              Sample.world ["img001.tif"; "*2.tif"] "dem.tif" "pose.txt" None None
              (Some 2) Sample.init Sample.config_text Sample.config
              [("img001", Sample.img001)])
    as (report & evs & Hrun & Hfst & _); [reflexivity .. |].
  exists report, evs. split; [exact Hrun |]. rewrite Hfst. reflexivity.
Defined.

(** C3, as stated, fails: [img001.tif] is matched by both patterns and is
    processed twice. *)
Lemma C3_counterexample :
  (main Sample.world ["*.tif"; "img001.tif"] "dem.tif" "pose.txt" None None None
     (Some 2) Sample.init).1
  = Ret [(Path "img001.tif", Succeeded);
         (Path "img002.tif", Skipped (Exception "Could not find img002 in pose.txt"));
         (Path "img001.tif", Succeeded)]
  /\ ~ List.NoDup [Path "img001.tif"; Path "img002.tif"; Path "img001.tif"].
Proof.
  split; [vm_compute; reflexivity |].
  intros H. inversion H as [| x l Hnin Hnd]. apply Hnin. simpl. tauto.
Qed.

(** A world whose YAML codec knows three documents: the sample
    configuration, as written by hand and as [yaml.dump] lays it out, the
    empty mapping and the null document. *)
Module Codec.

Definition nl : string := String "010"%char "".

(** [config.yaml], written by hand. *)
Definition source_text : string :=
  "# simple_ortho configuration" +:+ nl
  +:+ "camera: {focal_len: 120.0, sensor_size: [92.5, 165.875]}" +:+ nl
  +:+ "ortho: {build_ovw: true}" +:+ nl.

(** The same document, as [yaml.dump] writes it. *)
Definition dumped_text : string :=
  "camera:" +:+ nl
  +:+ "  focal_len: 120.0" +:+ nl
  +:+ "  sensor_size:" +:+ nl
  +:+ "  - 92.5" +:+ nl
  +:+ "  - 165.875" +:+ nl
  +:+ "ortho:" +:+ nl
  +:+ "  build_ovw: true" +:+ nl.

Definition load (text : string) : result yaml :=
  if String.eqb text source_text || String.eqb text dumped_text then Ok Sample.config
  else if String.eqb text ("{}" +:+ nl) then Ok (YMap [])
  else if String.eqb text ("null" +:+ nl +:+ "..." +:+ nl) then Ok YNull
  else Err (PyExc "ScannerError" "could not parse").

Definition dump (c : yaml) : string :=
  match c with
  | YNull => "null" +:+ nl +:+ "..." +:+ nl
  | YMap [] => "{}" +:+ nl
  | _ => dumped_text
  end.

Definition with_dump (d : yaml -> string) : World := {|
  root_path := root_path Sample.world;
  glob := glob Sample.world;
  yaml_safe_load := load;
  yaml_dump := d;
  read_csv := read_csv Sample.world;
  rio_open := rio_open Sample.world;
  Camera_init := Camera_init Sample.world;
  OrthoIm_init := OrthoIm_init Sample.world;
  orthorectify := orthorectify Sample.world;
  build_ortho_overviews := build_ortho_overviews Sample.world
|}.

Definition world : World := with_dump dump.

(** A dumper that loses the document: it writes the empty mapping. *)
Definition lossy : World := with_dump (fun _ => "{}" +:+ nl).

Definition init : state :=
  MkState (<["config.yaml" := File source_text]> (<["out" := Dir]> Sample.files)) [].

End Codec.



(** With a dumper that loses the document the run is the same, and the
    target loads as another configuration than the one that was loaded. *)
Example lossy_dump_reloads_differently :
  exists s',
    main Codec.lossy ["*.tif"] "dem.tif" "pose.txt" None None (Some "out/conf.yaml")
      (Some 2) Codec.init
    = (SysExit 0, s')
    /\ load_config Codec.lossy (Path "out/conf.yaml") s' = (Ret (YMap []), s').
Proof. eexists. split; vm_compute; reflexivity. Qed.

(** C5 on the sample world: the pose table has no row for [img002]. *)
Lemma C5_witness :
  exists report evs,
    main Sample.world ["*.tif"] "dem.tif" "pose.txt" None None None (Some 2) Sample.init
    = (Ret report, MkState (fs Sample.init) (trace Sample.init ++ evs))
    /\ map fst report = [Path "img001.tif"; Path "img002.tif"]
    /\ In (Path "img002.tif",
           Skipped (Exception "Could not find img002 in pose.txt")) report
    /\ In (EvLog ERROR "Exception: Could not find img002 in pose.txt") evs.
Proof.
  destruct (C5_missing_pose_skips_one_image
              Sample.world ["*.tif"] "dem.tif" "pose.txt" None None (Some 2)
              Sample.init Sample.config_text Sample.config [("img001", Sample.img001)])
    as (report & evs & Hrun & Hfst & Hmiss); [reflexivity .. |].
  exists report, evs. split; [exact Hrun |]. split; [rewrite Hfst; reflexivity |].
  destruct (Hmiss (Path "img002.tif")) as (_ & Hin & Hlog).
  - vm_compute. tauto.
  - reflexivity.
  - split; [exact Hin | exact Hlog].
Defined.

(** C6 (amended) on the sample world: ["x*"] is the first pattern
    without a match. *)
Lemma C6_witness :
  main Sample.world (["*.tif"] ++ "x*" :: ["y*"]) "dem.tif" "pose.txt" None None None
    (Some 2) Sample.init
  = (Raise (Exception ("Could not find any source image(s) matching " +:+ "x*")),
     MkState (fs Sample.init)
       (trace Sample.init ++ level_events (Some 2)
          ++ [EvExists (config_path Sample.world None)]
          ++ map glob_event (["*.tif"] ++ ["x*"])
          ++ [EvLog ERROR
                ("Exception: "
                   +:+ exn_str (Exception ("Could not find any source image(s) matching "
                                             +:+ "x*")))])).
Proof.
  apply (C6_first_unmatched_pattern_is_fatal
           Sample.world ["*.tif"] "x*" ["y*"] "dem.tif" "pose.txt" None None (Some 2)
           Sample.init Sample.config_text Sample.config); reflexivity.
Defined.

(** C6, as stated, fails: ["y*"] matches no file, and the run fails
    with an error that names ["x*"]. *)
Lemma C6_counterexample :
  matches Sample.world "y*" = Ok []
  /\ (main Sample.world ["x*"; "y*"] "dem.tif" "pose.txt" None None None (Some 2)
        Sample.init).1
     = Raise (Exception "Could not find any source image(s) matching x*")
  /\ (main Sample.world ["x*"; "y*"] "dem.tif" "pose.txt" None None None (Some 2)
        Sample.init).1
     <> Raise (Exception "Could not find any source image(s) matching y*").
Proof.
  split; [reflexivity |]. split; [vm_compute; reflexivity |].
  vm_compute. discriminate.
Qed.

(** C7 on the specification's example row,
    [img001 500000.0 4000000.0 1200.0 1.5 -0.3 90.0]. *)
Lemma C7_witness :
  exists st evs c,
    (forall s, process_image Sample.world Sample.config [("img001", Sample.img001)]
                 "dem.tif" "pose.txt" None (Path "img001.tif") s
               = (Ret (Path "img001.tif", st), MkState (fs s) (trace s ++ evs)))
    /\ In (EvCamera c) evs
    /\ position c = Arr1 [500000; 4000000; 1200]%float
    /\ orientation c = Arr1 [0x1.acee9f37bebd5p-6; -0x1.57254c2c98977p-8;
                             0x1.921fb54442d18p+0]%float.
Proof.
  destruct (C7_camera_gets_position_and_radians
              Sample.world Sample.config [("img001", Sample.img001)] "dem.tif" "pose.txt"
              None (Path "img001.tif") Sample.img001)
    as (st & evs & Hrun & Hall & Hbuilt); [reflexivity |].
  exists st, evs. eexists. split; [exact Hrun |].
  split; [eapply (Hbuilt Sample.raster); reflexivity |].
  split; vm_compute; reflexivity.
Defined.

(** C8 on the sample world: the DEM file does not exist. *)
Lemma C8_witness :
  exists e before,
    main Sample.world ["*.tif"] "nodem.tif" "pose.txt" None None None (Some 2)
      Sample.init
    = (Raise e,
       MkState (fs Sample.init)
         (trace Sample.init ++ before
            ++ [EvLog ERROR ("Exception: " +:+ exn_str e)]))
    /\ forall ev, In ev before -> is_image_event ev = false.
Proof.
  destruct (C8_validations_precede_images
              Sample.world ["*.tif"] "nodem.tif" "pose.txt" None None None (Some 2)
              Sample.init)
    as (o & files & evs & Hrun & _ & Hfail).
  destruct (Hfail Sample.config_text Sample.config)
    as (e & before & -> & -> & -> & Hnone); [reflexivity .. |].
  exists e, before. split; [exact Hrun | exact Hnone].
Defined.

(** C9 on the sample world: [custom.yaml] does not exist. *)
Lemma C9_witness :
  main Sample.world ["*.tif"] "dem.tif" "pose.txt" None (Some "custom.yaml")
    (Some "copy.yaml") (Some 2) Sample.init
  = (Raise (Exception ("Config file " +:+ path_str (config_path Sample.world
                                                      (Some "custom.yaml"))
                         +:+ " does not exist")),
     MkState (fs Sample.init)
       (trace Sample.init ++ level_events (Some 2)
          ++ [EvExists (config_path Sample.world (Some "custom.yaml"));
              EvLog ERROR
                ("Exception: "
                   +:+ exn_str (Exception ("Config file "
                                             +:+ path_str (config_path Sample.world
                                                             (Some "custom.yaml"))
                                             +:+ " does not exist")))])).
Proof.
  apply (C9_missing_config_precedes_write
           Sample.world ["*.tif"] "dem.tif" "pose.txt" None (Some "custom.yaml")
           "copy.yaml" (Some 2) Sample.init); reflexivity.
Defined.

(** C10 on the sample world: the overviews of [img001.tif] are built
    after it has been orthorectified. *)
Lemma C10_witness :
  exists st evs oi,
    (forall s, process_image Sample.world Sample.config [("img001", Sample.img001)]
                 "dem.tif" "pose.txt" None (Path "img001.tif") s
               = (Ret (Path "img001.tif", st), MkState (fs s) (trace s ++ evs)))
    /\ st = Succeeded
    /\ In (EvBuildOverviews oi) evs
    /\ orthorectify Sample.world oi = None
    /\ exists before after, evs = before ++ EvOrthorectify oi :: after
                            /\ In (EvBuildOverviews oi) after.
Proof.
  destruct (C10_overviews_only_after_orthorectify
              Sample.world Sample.config [("img001", Sample.img001)] "dem.tif"
              "pose.txt" None (Path "img001.tif"))
    as (st & evs & Hrun & Hov & _).
  pose proof (Hrun blank) as Hblank. vm_compute in Hblank.
  injection Hblank as <- <-.
  match type of Hov with
  | forall oi, In _ ?l -> _ =>
      assert (Hin : exists oi, In (EvBuildOverviews oi) l)
        by (eexists; simpl; do 7 right; left; reflexivity)
  end.
  destruct Hin as [oi Hin].
  destruct (Hov oi Hin) as (_ & Hort & _ & Hsplit).
  eexists _, _, oi. split; [exact Hrun |]. split; [reflexivity |].
  split; [exact Hin |]. split; [exact Hort | exact Hsplit].
Defined.

(** * Further properties of the driver

    Behaviour of [_check_args], of [main] and of the per-image pipeline
    beyond the claims above. *)

(** ** Vocabulary *)

(** Queries of the file system: they read it and change nothing. *)
Definition is_query (e : event) : bool :=
  match e with
  | EvGlob _ _ | EvExists _ | EvIsDir _ => true
  | _ => false
  end.

Definition is_set_level (e : event) : bool :=
  match e with
  | EvSetLevel _ _ => true
  | _ => false
  end.

Definition is_error_log (e : event) : bool :=
  match e with
  | EvLog ERROR _ => true
  | _ => false
  end.

Definition is_skipped (st : image_status) : bool :=
  match st with
  | Skipped _ => true
  | Succeeded => false
  end.

(** A string without [/]: one component of a path. *)
Fixpoint slash_free (s : string) : bool :=
  match s with
  | EmptyString => true
  | String c s' => negb (Ascii.eqb c "/") && slash_free s'
  end.

(** Variations of the sample world in which a collaborator fails. *)
Module Cases.

Definition engine_error : exn := PyExc "Exception" "engine failure".

Definition with_engine (rio : path -> result raster_info)
    (cam : camera -> option exn) (oim ort ovw : ortho_im -> option exn)
    (cfg : yaml) (table : result pose_table) : World := {|
  root_path := root_path Sample.world;
  glob := glob Sample.world;
  yaml_safe_load := yaml_safe_load (Sample.world_with cfg);
  yaml_dump := yaml_dump Sample.world;
  read_csv := fun _ => table;
  rio_open := rio;
  Camera_init := cam;
  OrthoIm_init := oim;
  orthorectify := ort;
  build_ortho_overviews := ovw
|}.

Definition ok_rio : path -> result raster_info := fun _ => Ok Sample.raster.
Definition ok_cam : camera -> option exn := fun _ => None.
Definition ok_eng : ortho_im -> option exn := fun _ => None.
Definition table : pose_table := [("img001", Sample.img001)].

(** The raster cannot be opened. *)
Definition unreadable : World :=
  with_engine (fun _ => Err (PyExc "RasterioIOError" "not recognized as a supported file format"))
    ok_cam ok_eng ok_eng ok_eng Sample.config (Ok table).

(** [ortho] has no [build_ovw]. *)
Definition config_no_ovw : yaml :=
  YMap [(YStr "camera", YMap [(YStr "focal_len", YFloat 120.0);
                              (YStr "sensor_size", YSeq [YFloat 92.5; YFloat 165.875])]);
        (YStr "ortho", YMap [])].

Definition no_build_ovw : World :=
  with_engine ok_rio ok_cam ok_eng ok_eng ok_eng config_no_ovw (Ok table).

(** The overview builder fails, for one image and for none. *)
Definition ovw_fails : World :=
  with_engine ok_rio ok_cam ok_eng ok_eng (fun _ => Some engine_error)
    Sample.config (Ok [("img001", Sample.img001); ("img002", Sample.img001)]).

(** The pose table cannot be parsed. *)
Definition bad_table : World :=
  with_engine ok_rio ok_cam ok_eng ok_eng ok_eng Sample.config
    (Err (PyExc "ParserError" "Error tokenizing data")).

(** The configuration is no YAML document. *)
Definition bad_yaml : World := {|
  root_path := root_path Sample.world;
  glob := glob Sample.world;
  yaml_safe_load := fun _ => Err (PyExc "ScannerError" "mapping values are not allowed here");
  yaml_dump := yaml_dump Sample.world;
  read_csv := read_csv Sample.world;
  rio_open := ok_rio;
  Camera_init := ok_cam;
  OrthoIm_init := ok_eng;
  orthorectify := ok_eng;
  build_ortho_overviews := ok_eng
|}.

(** A second row for [img001] in the pose table. *)
Definition img001_again : pose_row :=
  MkPose 500010.0 4000020.0 1250.0 2.0 0.5 45.0.

Definition repeated : pose_table := [("img001", Sample.img001); ("img001", img001_again)].

End Cases.

(** Membership in a list built from [::] and [++]: one goal per part. *)
Ltac in_parts H :=
  simpl in H;
  lazymatch type of H with
  | In _ (_ ++ _) => apply in_app_iff in H as [H | H]; in_parts H
  | _ \/ _ => destruct H as [H | H]; in_parts H
  | False => destruct H
  | _ => idtac
  end.

(** ** [_check_args] *)

Section CheckArgsFacts.

Context (w : World).

Lemma check_events_query files src dem pos od ev :
  In ev (check_events w files src dem pos od) -> is_query ev = true.
Proof.
  unfold check_events. intros [Hev | Hev]%in_app_iff.
  - by apply in_map_iff in Hev as (spec & <- & _).
  - destruct (first_bad w src); [done |].
    destruct (node_exists files dem), (node_exists files pos), od as [d |];
      try destruct (is_directory files d); in_events Hev; by subst.
Qed.

(** X1.  [_check_args] only asks: whatever its arguments and whatever the
    state, it ends by returning or raising, leaves the file system as it
    was, logs nothing, and every call it makes is a glob expansion or an
    existence test: it never creates a directory. *)
Theorem X1_check_args_only_queries src dem pos od s :
  exists o evs,
    _check_args w src dem pos od s = (o, MkState (fs s) (trace s ++ evs))
    /\ no_exit o
    /\ forall ev, In ev evs -> is_query ev = true.
Proof.
  eexists _, _. split; [apply check_args_run |]. split.
  - by destruct (check_failure w (fs s) src dem pos od).
  - apply check_events_query.
Qed.

(** X2.  [_check_args] returns exactly when all four validations pass:
    every pattern has a match, the DEM and the pose file exist, and the
    output directory, if one is given, is an existing directory.  It then
    has expanded every pattern and tested every path, in that order;
    otherwise it raises. *)
Theorem X2_check_args_accepts_exactly src dem pos od s :
  (validations_pass w (fs s) src dem pos od = true ->
   _check_args w src dem pos od s
   = (Ret tt, MkState (fs s) (trace s ++ validation_events src dem pos od)))
  /\ (validations_pass w (fs s) src dem pos od = false ->
      exists e evs,
        _check_args w src dem pos od s = (Raise e, MkState (fs s) (trace s ++ evs))).
Proof.
  rewrite check_args_run. split.
  - intros Hval%validations_check_failure.
    by rewrite Hval, (check_events_pass w _ _ _ _ _ Hval).
  - intros Hval. destruct (check_failure w (fs s) src dem pos od) as [e |] eqn:Hchk.
    + by eexists _, _.
    + apply validations_check_failure in Hchk. congruence.
Qed.

(** X3.  A missing DEM is reported once every pattern has a match, and
    before the pose file and the output directory are looked at: the
    message carries the argument as given. *)
Theorem X3_missing_dem src dem pos od s :
  forallb (pattern_ok w) src = true ->
  fs s !! path_str (Path dem) = None ->
  _check_args w src dem pos od s
  = (Raise (Exception ("DEM file " +:+ dem +:+ " does not exist")),
     MkState (fs s) (trace s ++ map glob_event src ++ [EvExists (Path dem)])).
Proof.
  intros Hsrc Hdem. rewrite check_args_run.
  pose proof (forallb_first_bad w src Hsrc) as Hbad.
  destruct (first_bad_checked w src Hbad) as [Hchk _].
  unfold check_failure, check_events, node_exists.
  by rewrite Hbad, Hchk, Hdem.
Qed.

(** X4.  A missing pose file is reported once the patterns match and the
    DEM exists, and before the output directory is looked at. *)
Theorem X4_missing_pose_file src dem pos od s :
  forallb (pattern_ok w) src = true ->
  fs s !! path_str (Path dem) <> None ->
  fs s !! path_str (Path pos) = None ->
  _check_args w src dem pos od s
  = (Raise (Exception ("Camera position and orientation file " +:+ pos
                         +:+ " does not exist")),
     MkState (fs s)
       (trace s ++ map glob_event src ++ [EvExists (Path dem); EvExists (Path pos)])).
Proof.
  intros Hsrc Hdem Hpos. rewrite check_args_run.
  pose proof (forallb_first_bad w src Hsrc) as Hbad.
  destruct (first_bad_checked w src Hbad) as [Hchk _].
  unfold check_failure, check_events, node_exists.
  rewrite Hbad, Hchk, Hpos. by destruct (fs s !! path_str (Path dem)).
Qed.

(** X5.  With the other validations passing, an output directory is
    accepted exactly when it is an existing directory, and then silently:
    no warning, nothing created.  A regular file is rejected as "not a
    valid directory". *)
Theorem X5_ortho_dir_must_be_a_directory src dem pos d s :
  validations_pass w (fs s) src dem pos None = true ->
  (fs s !! path_str (Path d) = Some Dir ->
   _check_args w src dem pos (Some d) s
   = (Ret tt,
      MkState (fs s)
        (trace s ++ map glob_event src
           ++ [EvExists (Path dem); EvExists (Path pos);
               EvIsDir (Path d); EvExists (Path d)])))
  /\ (forall text,
        fs s !! path_str (Path d) = Some (File text) ->
        _check_args w src dem pos (Some d) s
        = (Raise (Exception ("Ortho directory " +:+ path_str (Path d)
                               +:+ " is not a valid directory")),
           MkState (fs s)
             (trace s ++ map glob_event src
                ++ [EvExists (Path dem); EvExists (Path pos); EvIsDir (Path d)]))).
Proof.
  intros Hval. rewrite check_args_run.
  unfold validations_pass in Hval. rewrite andb_true_r in Hval.
  apply andb_prop in Hval as [[Hsrc Hdem]%andb_prop Hpos].
  pose proof (forallb_first_bad w src Hsrc) as Hbad.
  destruct (first_bad_checked w src Hbad) as [Hchk _].
  unfold check_failure, check_events, is_directory.
  rewrite Hbad, Hchk, Hdem, Hpos. split.
  - by intros ->.
  - by intros text ->.
Qed.

End CheckArgsFacts.

(** X3 on the sample world. *)
Lemma X3_witness :
  _check_args Sample.world ["*.tif"] "nodem.tif" "nopose.txt" (Some "notes.txt") Sample.init
  = (Raise (Exception ("DEM file " +:+ "nodem.tif" +:+ " does not exist")),
     MkState (fs Sample.init)
       (trace Sample.init ++ map glob_event ["*.tif"] ++ [EvExists (Path "nodem.tif")])).
Proof. apply (X3_missing_dem Sample.world); reflexivity. Defined.

(** X4 on the sample world. *)
Lemma X4_witness :
  _check_args Sample.world ["*.tif"] "dem.tif" "nopose.txt" (Some "notes.txt") Sample.init
  = (Raise (Exception ("Camera position and orientation file " +:+ "nopose.txt"
                         +:+ " does not exist")),
     MkState (fs Sample.init)
       (trace Sample.init ++ map glob_event ["*.tif"]
          ++ [EvExists (Path "dem.tif"); EvExists (Path "nopose.txt")])).
Proof.
  apply (X4_missing_pose_file Sample.world); [reflexivity | | reflexivity].
  vm_compute. discriminate.
Defined.

(** X5 on the sample world: [notes.txt] is a regular file. *)
Lemma X5_witness :
  _check_args Sample.world ["*.tif"] "dem.tif" "pose.txt" (Some "notes.txt") Sample.init
  = (Raise (Exception ("Ortho directory " +:+ path_str (Path "notes.txt")
                         +:+ " is not a valid directory")),
     MkState (fs Sample.init)
       (trace Sample.init ++ map glob_event ["*.tif"]
          ++ [EvExists (Path "dem.tif"); EvExists (Path "pose.txt");
              EvIsDir (Path "notes.txt")])).
Proof.
  destruct (X5_ortho_dir_must_be_a_directory
              Sample.world ["*.tif"] "dem.tif" "pose.txt" "notes.txt" Sample.init)
    as [_ Hfile]; [reflexivity |].
  apply (Hfile ""). reflexivity.
Defined.

(** ** [main] *)

Section MainFacts.

Context (w : World).

(** Every event of [main] after the [setLevel] calls is of one of the
    kinds below; in particular none is a [setLevel] or an [os.mkdir]. *)
Lemma main_events_after_levels (P : event -> Prop) src dem pos od rc wc v s :
  (forall ev, is_query ev = true -> P ev) ->
  (forall ev, is_image_event ev = true -> P ev) ->
  (forall l m, P (EvLog l m)) ->
  (forall f, P (EvReadCsv f)) ->
  (forall f c, P (EvWrite f c)) ->
  exists o files rest,
    main w src dem pos od rc wc v s
    = (o, MkState files (trace s ++ level_events v ++ rest))
    /\ forall ev, In ev rest -> P ev.
Proof.
  intros Hq Hi Hl Hr Hw.
  assert (Hchk : forall ev, In ev (check_events w (fs s) src dem pos od) -> P ev)
    by (intros ev Hev; by apply Hq, (check_events_query w _ _ _ _ _ _ Hev)).
  assert (Hval : forall ev, In ev (validation_events src dem pos od) -> P ev).
  { intros ev [Hev | Hev]%in_app_iff.
    - apply in_map_iff in Hev as (spec & <- & _). by apply Hq.
    - destruct od; in_events Hev; subst; by apply Hq. }
  assert (Hloop : forall config table ev,
            In ev (loop_events w config table dem pos od src) -> P ev).
  { intros config table ev [[spec ->] | (img & _ & Hev)]%loop_events_inv;
      [by apply Hq |].
    apply image_events_kind in Hev. destruct ev; try done; by apply Hi. }
  assert (Hcfg : P (EvExists (config_path w rc))) by by apply Hq.
  rewrite main_run. unfold main_view, fatal, error_event.
  destruct (fs s !! path_str (config_path w rc)) as [[text |] |];
    [destruct (yaml_safe_load w text) as [config | e];
       [destruct wc as [f |];
          [destruct (write_failure (fs s) (Path f)) as [e |]
          | destruct (check_failure w (fs s) src dem pos od) as [e |];
              [| destruct (read_csv w pos) as [table | e]]]
       |]
    | |].
  all: eexists _, _, _; (split; [by rewrite <- !app_assoc |]).
  all: intros ev Hev; in_parts Hev;
    first [ by subst | by apply Hchk | by apply Hval | by eapply Hloop ].
Qed.

(** X6.  The logging level is set from [verbosity] alone, first thing:
    with a verbosity [n] a run starts with the two [setLevel(10 * n)]
    calls, with none it makes no such call, and nothing later in the run
    sets a level. *)
Theorem X6_level_set_once_from_verbosity src dem pos od rc wc v s :
  exists o files rest,
    main w src dem pos od rc wc v s
    = (o, MkState files
            (trace s
               ++ match v with
                  | Some n => [EvSetLevel "command_line" (10 * n);
                               EvSetLevel "simple_ortho" (10 * n)]
                  | None => []
                  end
               ++ rest))
    /\ forall ev, In ev rest -> is_set_level ev = false.
Proof.
  apply (main_events_after_levels (fun ev => is_set_level ev = false));
    try done; by intros [].
Qed.

(** X7.  Whenever [main] raises, the exception has just been logged, as
    the last event and as the run's only ERROR line, and the file system
    is as it was before the run. *)
Theorem X7_raise_is_logged_last src dem pos od rc wc v s e s' :
  main w src dem pos od rc wc v s = (Raise e, s') ->
  fs s' = fs s
  /\ exists before,
       trace s' = trace s ++ before ++ [EvLog ERROR ("Exception: " +:+ exn_str e)]
       /\ forall ev, In ev before -> is_error_log ev = false.
Proof.
  assert (Hlev : forall ev, In ev (level_events v) -> is_error_log ev = false)
    by (intros ev Hev; destruct v; in_events Hev; by subst).
  assert (Hchk : forall ev, In ev (check_events w (fs s) src dem pos od) ->
                            is_error_log ev = false)
    by (intros ev Hev%check_events_query; by destruct ev).
  assert (Hval : forall ev, In ev (validation_events src dem pos od) ->
                            is_error_log ev = false).
  { intros ev [Hev | Hev]%in_app_iff.
    - by apply in_map_iff in Hev as (spec & <- & _).
    - destruct od; in_events Hev; by subst. }
  rewrite main_run. unfold main_view, fatal, error_event.
  destruct (fs s !! path_str (config_path w rc)) as [[text |] |];
    [destruct (yaml_safe_load w text) as [config | e0];
       [destruct wc as [f |];
          [destruct (write_failure (fs s) (Path f)) as [e0 |]
          | destruct (check_failure w (fs s) src dem pos od) as [e0 |];
              [| destruct (read_csv w pos) as [table | e0]]]
       |]
    | |].
  all: intros [= <- <-] || intros [=].
  all: split; [done |]; eexists; (split; [done |]).
  all: intros ev Hev; in_parts Hev;
    first [ by subst | by apply Hlev | by apply Hchk | by apply Hval ].
Qed.

(** X8.  [main] leaves through [exit] only on the write-config path: then
    with status 0, a write-config target given and the configuration
    loaded, the dump of that configuration at the target as the one
    change, and the write and its log line as the last calls.  A run
    that returns or raises has itself opened no file for writing and
    created no directory. *)
Theorem X8_exit_only_after_the_config_dump src dem pos od rc wc v s :
  exists o s' evs,
    main w src dem pos od rc wc v s = (o, s')
    /\ trace s' = trace s ++ evs
    /\ ((o = SysExit 0
         /\ exists f text config,
              wc = Some f
              /\ fs s !! path_str (config_path w rc) = Some (File text)
              /\ yaml_safe_load w text = Ok config
              /\ fs s' = <[path_str (Path f) := File (yaml_dump w config)]> (fs s)
              /\ evs = level_events v
                         ++ [EvExists (config_path w rc);
                             EvWrite (Path f) (yaml_dump w config);
                             EvLog INFO ("Wrote config to " +:+ path_str (Path f))])
        \/ (no_exit o /\ forall ev, In ev evs -> changes_fs ev = false)).
Proof.
  assert (Hlev : forall ev, In ev (level_events v) -> changes_fs ev = false)
    by apply level_events_keep.
  assert (Hchk : forall ev, In ev (check_events w (fs s) src dem pos od) ->
                            changes_fs ev = false)
    by apply check_events_keep.
  assert (Hval : forall ev, In ev (validation_events src dem pos od) ->
                            changes_fs ev = false)
    by apply validation_events_keep.
  assert (Hloop : forall config table ev,
            In ev (loop_events w config table dem pos od src) -> changes_fs ev = false)
    by (intros config table; apply loop_events_keep).
  rewrite main_run. unfold main_view, fatal, error_event.
  destruct (fs s !! path_str (config_path w rc)) as [[text |] |] eqn:Hcfg;
    [destruct (yaml_safe_load w text) as [config | e] eqn:Hy;
       [destruct wc as [f |];
          [destruct (write_failure (fs s) (Path f)) as [e |]
          | destruct (check_failure w (fs s) src dem pos od) as [e |];
              [| destruct (read_csv w pos) as [table | e]]]
       |]
    | |].
  2: { eexists _, _, _. split; [done |]. split; [done |]. left.
       split; [done |]. exists f, text, config. by rewrite <- !app_assoc. }
  all: eexists _, _, _; (split; [done |]); (split; [done |]); right; (split; [done |]).
  all: intros ev Hev; in_parts Hev;
    first [ by subst | by apply Hlev | by apply Hchk | by apply Hval | by eapply Hloop ].
Qed.

(** X9.  With a write-config target, the images, the DEM, the pose file
    and the output directory play no part: the run is the same whatever
    they are. *)
Theorem X9_write_config_ignores_inputs
    src dem pos od src' dem' pos' od' rc f v s :
  main w src dem pos od rc (Some f) v s = main w src' dem' pos' od' rc (Some f) v s.
Proof. by rewrite !main_run. Qed.

(** X10.  A configuration file that does not parse ends the run there,
    whatever else was asked: the parser's exception is logged and raised
    again, nothing is validated and nothing is written. *)
Theorem X10_unparsable_config src dem pos od rc wc v s text e :
  fs s !! path_str (config_path w rc) = Some (File text) ->
  yaml_safe_load w text = Err e ->
  main w src dem pos od rc wc v s
  = (Raise e,
     MkState (fs s)
       (trace s ++ level_events v
          ++ [EvExists (config_path w rc);
              EvLog ERROR ("Exception: " +:+ exn_str e)])).
Proof.
  intros Hcfg Hy. rewrite main_run. unfold main_view, fatal.
  rewrite Hcfg, Hy. by rewrite <- !app_assoc.
Qed.

(** X11.  A write-config target that cannot be opened for writing makes
    the run fail instead of exiting: the error of [open] is logged and
    raised again, and nothing is written.  The error is
    [FileNotFoundError] when the first of the target's directories that
    is no directory does not exist, [NotADirectoryError] when it is a
    regular file, and [IsADirectoryError] when the directories are there
    and the target itself is one. *)
Theorem X11_write_config_target_unwritable src dem pos od rc f v s text config :
  fs s !! path_str (config_path w rc) = Some (File text) ->
  yaml_safe_load w text = Ok config ->
  (forall above d below,
     ancestors (Path f) = above ++ d :: below ->
     List.Forall (fun a => fs s !! path_str a = Some Dir) above ->
     (fs s !! path_str d = None ->
      main w src dem pos od rc (Some f) v s
      = fatal s (level_events v ++ [EvExists (config_path w rc)])
          (PyExc "FileNotFoundError"
             ("[Errno 2] No such file or directory: '" +:+ path_str (Path f) +:+ "'")))
     /\ (forall t,
          fs s !! path_str d = Some (File t) ->
          main w src dem pos od rc (Some f) v s
          = fatal s (level_events v ++ [EvExists (config_path w rc)])
              (PyExc "NotADirectoryError"
                 ("[Errno 20] Not a directory: '" +:+ path_str (Path f) +:+ "'"))))
  /\ (List.Forall (fun a => fs s !! path_str a = Some Dir) (ancestors (Path f)) ->
      fs s !! path_str (Path f) = Some Dir ->
      main w src dem pos od rc (Some f) v s
      = fatal s (level_events v ++ [EvExists (config_path w rc)])
          (PyExc "IsADirectoryError"
             ("[Errno 21] Is a directory: '" +:+ path_str (Path f) +:+ "'"))).
Proof.
  intros Hcfg Hy. rewrite main_run. unfold main_view. rewrite Hcfg, Hy.
  unfold write_failure. split.
  - intros above d below -> Habove.
    rewrite (blocked_below _ _ _ _ _ Habove). cbn [blocked].
    split; [by intros -> | by intros t ->].
  - intros Hdirs Hout. by rewrite (blocked_dirs _ _ _ Hdirs), Hout.
Qed.

(** X12.  A pose table that [read_csv] cannot read is batch-fatal: with
    the configuration loaded and the validations passed, its exception
    is logged and raised again before any image is looked at. *)
Theorem X12_unreadable_pose_table src dem pos od rc v s text config e :
  fs s !! path_str (config_path w rc) = Some (File text) ->
  yaml_safe_load w text = Ok config ->
  validations_pass w (fs s) src dem pos od = true ->
  read_csv w pos = Err e ->
  main w src dem pos od rc None v s
  = (Raise e,
     MkState (fs s)
       (trace s ++ level_events v ++ [EvExists (config_path w rc)]
          ++ validation_events src dem pos od
          ++ [EvReadCsv pos; EvLog ERROR ("Exception: " +:+ exn_str e)])).
Proof.
  intros Hcfg Hy Hval%validations_check_failure Hcsv.
  rewrite main_run. unfold main_view, fatal. rewrite Hcfg, Hy, Hval, Hcsv.
  by rewrite <- !app_assoc.
Qed.

End MainFacts.

(** X7 on the sample world: the DEM does not exist. *)
Lemma X7_witness :
  fs (main Sample.world ["*.tif"] "nodem.tif" "pose.txt" None None None (Some 2)
        Sample.init).2
  = fs Sample.init
  /\ exists before,
       trace (main Sample.world ["*.tif"] "nodem.tif" "pose.txt" None None None (Some 2)
                Sample.init).2
       = trace Sample.init ++ before
           ++ [EvLog ERROR ("Exception: "
                              +:+ exn_str (Exception "DEM file nodem.tif does not exist"))]
       /\ forall ev, In ev before -> is_error_log ev = false.
Proof.
  apply (X7_raise_is_logged_last Sample.world ["*.tif"] "nodem.tif" "pose.txt" None None
           None (Some 2) Sample.init).
  vm_compute. reflexivity.
Defined.

(** X10 on a world whose configuration does not parse, with a write-config
    target. *)
Lemma X10_witness :
  main Cases.bad_yaml ["*.tif"] "dem.tif" "pose.txt" None None (Some "copy.yaml") (Some 2)
    Sample.init
  = (Raise (PyExc "ScannerError" "mapping values are not allowed here"),
     MkState (fs Sample.init)
       (trace Sample.init ++ level_events (Some 2)
          ++ [EvExists (config_path Cases.bad_yaml None);
              EvLog ERROR
                ("Exception: "
                   +:+ exn_str (PyExc "ScannerError"
                                  "mapping values are not allowed here"))])).
Proof.
  apply (X10_unparsable_config Cases.bad_yaml ["*.tif"] "dem.tif" "pose.txt" None None
           (Some "copy.yaml") (Some 2) Sample.init Sample.config_text);
    reflexivity.
Defined.

(** X11 on the sample world: the target lies under [dem.tif], a regular
    file. *)
Lemma X11_witness :
  main Sample.world ["*.tif"] "dem.tif" "pose.txt" None None (Some "dem.tif/conf.yaml")
    (Some 2) Sample.init
  = (Raise (PyExc "NotADirectoryError" "[Errno 20] Not a directory: 'dem.tif/conf.yaml'"),
     MkState (fs Sample.init)
       [EvSetLevel "command_line" 20; EvSetLevel "simple_ortho" 20;
        EvExists (Path "config.yaml");
        EvLog ERROR "Exception: [Errno 20] Not a directory: 'dem.tif/conf.yaml'"]).
Proof.
  destruct (X11_write_config_target_unwritable Sample.world ["*.tif"] "dem.tif"
              "pose.txt" None None "dem.tif/conf.yaml" (Some 2) Sample.init
              Sample.config_text Sample.config) as [Hdirs _]; [reflexivity .. |].
  destruct (Hdirs [Path "."] (Path "dem.tif") []) as [_ Hfile];
    [reflexivity | by repeat constructor |].
  apply (Hfile ""). reflexivity.
Defined.

(** X12 on a world whose pose table cannot be read. *)
Lemma X12_witness :
  main Cases.bad_table ["*.tif"] "dem.tif" "pose.txt" None None None (Some 2) Sample.init
  = (Raise (PyExc "ParserError" "Error tokenizing data"),
     MkState (fs Sample.init)
       (trace Sample.init ++ level_events (Some 2)
          ++ [EvExists (config_path Cases.bad_table None)]
          ++ validation_events ["*.tif"] "dem.tif" "pose.txt" None
          ++ [EvReadCsv "pose.txt";
              EvLog ERROR ("Exception: "
                             +:+ exn_str (PyExc "ParserError" "Error tokenizing data"))])).
Proof.
  apply (X12_unreadable_pose_table Cases.bad_table ["*.tif"] "dem.tif" "pose.txt" None
           None (Some 2) Sample.init Sample.config_text Sample.config);
    reflexivity.
Defined.

(** ** Paths of the output files *)

Lemma slash_free_append a b :
  slash_free (a +:+ b) = slash_free a && slash_free b.
Proof.
  induction a as [| c a IH]; simpl; [done |].
  rewrite IH. by destruct (Ascii.eqb c "/").
Qed.

Lemma slash_free_substring n m s :
  slash_free s = true -> slash_free (String.substring n m s) = true.
Proof.
  revert n m. induction s as [| c s IH]; intros n m Hs.
  - by destruct n, m.
  - simpl in Hs. apply andb_prop in Hs as [Hc Hs].
    destruct n as [| n], m as [| m]; simpl; auto.
    rewrite Hc. simpl. by apply IH.
Qed.

Lemma slash_free_stem name :
  slash_free name = true -> slash_free (stem_of_name name) = true.
Proof.
  intros H. unfold stem_of_name. destruct (rfind "." name) as [i |]; [| done].
  destruct (_ && _); [by apply slash_free_substring | done].
Qed.

Lemma slash_free_split s : slash_free s = true -> split_on "/" s = [s].
Proof.
  induction s as [| c s IH]; simpl; [done |].
  intros [Hc Hs]%andb_prop. apply negb_true_iff in Hc. rewrite Hc.
  by rewrite (IH Hs).
Qed.

Lemma slash_free_root s : slash_free s = true -> path_root s = "".
Proof.
  destruct s as [| c s]; [done |]. simpl. intros [Hc _]%andb_prop.
  apply negb_true_iff, Ascii.eqb_neq in Hc.
  destruct c as [[] [] [] [] [] [] [] []]; try done.
Qed.

(** A name [<stem>_ORTHO.tif] is one path component. *)
Lemma Path_ortho_name stem :
  slash_free stem = true ->
  Path (stem +:+ "_ORTHO.tif") = MkPath "" [stem +:+ "_ORTHO.tif"].
Proof.
  intros Hs.
  assert (Hfree : slash_free (stem +:+ "_ORTHO.tif") = true)
    by (by rewrite slash_free_append, Hs).
  unfold Path. rewrite (slash_free_root _ Hfree), (slash_free_split _ Hfree).
  f_equal.
  assert (Hc : is_component (stem +:+ "_ORTHO.tif") = true).
  { unfold is_component. destruct stem as [| a [| b stem]]; try done.
    - simpl. by destruct (Ascii.eqb a ".").
    - simpl. destruct (Ascii.eqb a "."); done. }
  by rewrite filter_cons_True.
Qed.

Lemma joinpath_ortho_name (dir : path) stem :
  slash_free stem = true ->
  path_name (joinpath dir (stem +:+ "_ORTHO.tif")) = stem +:+ "_ORTHO.tif"
  /\ path_parent (joinpath dir (stem +:+ "_ORTHO.tif")) = dir.
Proof.
  intros Hs. unfold joinpath. rewrite (Path_ortho_name _ Hs). simpl.
  unfold path_name, path_parent. simpl.
  rewrite last_last, removelast_last. by destruct dir.
Qed.

(** ** One image *)

Section ImageStages.

Context (w : World) (config : yaml) (cam_pos_orid : pose_table)
        (dem_file pos_ori_file : string) (ortho_dir : option string).

Abbreviation jstatus :=
  (image_status_of w config cam_pos_orid dem_file pos_ori_file ortho_dir).
Abbreviation jevents :=
  (image_events w config cam_pos_orid dem_file pos_ori_file ortho_dir).

Lemma index_loc label :
  index_contains cam_pos_orid label = true ->
  exists sel, loc cam_pos_orid label = Ok sel.
Proof.
  unfold loc, index_contains, rows_of. intros Hidx.
  destruct (map snd _) as [| r [| r' rs]] eqn:Hrows; [| by eexists | by eexists].
  exfalso. induction cam_pos_orid as [| [k v] t IH]; simpl in *; [done |].
  destruct (String.eqb k label); [done | by apply IH].
Qed.

(** The raster is opened only for an image whose stem the pose table has. *)
Lemma image_event_needs_pose img ev :
  In ev (jevents img) -> is_image_event ev = true ->
  index_contains cam_pos_orid (path_stem img) = true.
Proof.
  unfold image_events.
  destruct (index_contains cam_pos_orid (path_stem img)) eqn:Hidx; [done |].
  image_norm. rewrite Hidx. image_norm. intros H. in_events H. by subst.
Qed.

Lemma image_camera_after_open img c :
  In (EvCamera c) (jevents img) ->
  exists info rest,
    rio_open w img = Ok info
    /\ jevents img = EvRioOpen img :: EvCamera c :: rest
    /\ geo_transform c = transform info
    /\ im_size c = [np_float64 (width info); np_float64 (height info)].
Proof.
  unfold image_events.
  image_split; intros H; in_events H; injection H as <-; by eexists _, _.
Qed.

Lemma image_orthoim_after_camera img oi :
  In (EvOrthoIm oi) (jevents img) ->
  Camera_init w (ortho_camera oi) = None
  /\ In (EvCamera (ortho_camera oi)) (jevents img).
Proof.
  unfold image_events.
  image_split; intros H; in_events H; injection H as <-;
    (split; [done | simpl; tauto]).
Qed.

Lemma image_orthorectify_after_orthoim img oi :
  In (EvOrthorectify oi) (jevents img) ->
  OrthoIm_init w oi = None /\ In (EvOrthoIm oi) (jevents img).
Proof.
  unfold image_events.
  image_split; intros H; in_events H; injection H as <-;
    (split; [done | simpl; tauto]).
Qed.

(** X13.  The stages of one image run in order, each only after the one
    before it has returned: the raster is opened only if the pose table
    has the image's stem; a camera is built only from a raster that
    opened, right after it, with its geotransform and size; [OrthoIm] is
    built only with a camera whose construction returned; [orthorectify]
    is called only on an [OrthoIm] whose construction returned. *)
Theorem X13_stages_run_in_order img :
  exists st evs,
    (forall s, process_image w config cam_pos_orid dem_file pos_ori_file ortho_dir img s
               = (Ret (img, st), MkState (fs s) (trace s ++ evs)))
    /\ (forall ev, In ev evs -> is_image_event ev = true ->
          index_contains cam_pos_orid (path_stem img) = true)
    /\ (forall c, In (EvCamera c) evs ->
          exists info rest,
            rio_open w img = Ok info
            /\ evs = EvRioOpen img :: EvCamera c :: rest
            /\ geo_transform c = transform info
            /\ im_size c = [np_float64 (width info); np_float64 (height info)])
    /\ (forall oi, In (EvOrthoIm oi) evs ->
          Camera_init w (ortho_camera oi) = None
          /\ In (EvCamera (ortho_camera oi)) evs)
    /\ (forall oi, In (EvOrthorectify oi) evs ->
          OrthoIm_init w oi = None /\ In (EvOrthoIm oi) evs).
Proof.
  eexists _, _.
  split; [apply (process_image_emits w config cam_pos_orid dem_file pos_ori_file
                   ortho_dir img) |].
  split; [apply image_event_needs_pose |].
  split; [apply image_camera_after_open |].
  split; [apply image_orthoim_after_camera | apply image_orthorectify_after_orthoim].
Qed.

(** X14.  An image that cannot be opened is skipped for the reader's
    exception: nothing but the attempt and the ERROR line happens for
    it. *)
Theorem X14_unreadable_image_is_skipped img e s :
  index_contains cam_pos_orid (path_stem img) = true ->
  rio_open w img = Err e ->
  process_image w config cam_pos_orid dem_file pos_ori_file ortho_dir img s
  = (Ret (img, Skipped e),
     MkState (fs s)
       (trace s ++ [EvRioOpen img; EvLog ERROR ("Exception: " +:+ exn_str e)])).
Proof.
  intros Hidx Hrio. rewrite process_image_emits.
  destruct (index_loc _ Hidx) as [sel Hloc].
  unfold image_status_of, image_events. image_norm.
  rewrite Hidx, Hloc, Hrio. by image_norm.
Qed.

End ImageStages.

(** X14 on a world whose rasters cannot be opened. *)
Lemma X14_witness :
  process_image Cases.unreadable Sample.config Cases.table "dem.tif" "pose.txt" None
    (Path "img001.tif") Sample.init
  = (Ret (Path "img001.tif",
          Skipped (PyExc "RasterioIOError" "not recognized as a supported file format")),
     MkState (fs Sample.init)
       (trace Sample.init
          ++ [EvRioOpen (Path "img001.tif");
              EvLog ERROR
                ("Exception: "
                   +:+ exn_str (PyExc "RasterioIOError"
                                  "not recognized as a supported file format"))])).
Proof.
  apply (X14_unreadable_image_is_skipped Cases.unreadable); reflexivity.
Defined.

Section ImageOutcomes.

Context (w : World) (config : yaml) (cam_pos_orid : pose_table)
        (dem_file pos_ori_file : string) (ortho_dir : option string).

Abbreviation kstatus :=
  (image_status_of w config cam_pos_orid dem_file pos_ori_file ortho_dir).
Abbreviation kevents :=
  (image_events w config cam_pos_orid dem_file pos_ori_file ortho_dir).

(** X15.  An image for which every stage returns: it is reported
    [Succeeded], and its events are, in this order, the raster opened,
    the camera built, "Orthorectifying" logged, [OrthoIm] built,
    [orthorectify] called, completion logged, and, under a true
    [build_ovw] only, "Building overviews" logged, the overviews built
    and completion logged. *)
Theorem X15_image_that_succeeds img sel info cc fl ss oc flag s :
  index_contains cam_pos_orid (path_stem img) = true ->
  loc cam_pos_orid (path_stem img) = Ok sel ->
  rio_open w img = Ok info ->
  getitem config "camera" = Ok cc ->
  getitem cc "focal_len" = Ok fl ->
  getitem cc "sensor_size" = Ok ss ->
  getitem config "ortho" = Ok oc ->
  getitem oc "build_ovw" = Ok flag ->
  let cam := MkCamera fl ss [np_float64 (width info); np_float64 (height info)]
               (transform info) (position_of sel) (orientation_of sel) in
  let out := match ortho_dir with
             | Some d => Some (joinpath (Path d) (path_stem img +:+ "_ORTHO.tif"))
             | None => None
             end in
  let oi := MkOrthoIm img dem_file cam oc out in
  Camera_init w cam = None ->
  OrthoIm_init w oi = None ->
  orthorectify w oi = None ->
  (truthy flag = true -> build_ortho_overviews w oi = None) ->
  process_image w config cam_pos_orid dem_file pos_ori_file ortho_dir img s
  = (Ret (img, Succeeded),
     MkState (fs s)
       (trace s
          ++ [EvRioOpen img; EvCamera cam;
              EvLog INFO ("Orthorectifying " +:+ path_name img);
              EvOrthoIm oi; EvOrthorectify oi; EvLog INFO completed_msg]
          ++ if truthy flag
             then [EvLog INFO ("Building overviews for " +:+ path_name img);
                   EvBuildOverviews oi; EvLog INFO completed_msg]
             else [])).
Proof.
  intros Hidx Hloc Hrio Hcc Hfl Hss Hoc Hflag cam out oi Hcam Hoim Hort Hovw.
  rewrite process_image_emits. unfold image_status_of, image_events. image_norm.
  rewrite Hidx, Hloc, Hrio, Hcc, Hfl, Hss. image_norm.
  fold cam. rewrite Hcam, Hoc. image_norm. fold out. fold oi.
  rewrite Hoim, Hort, Hflag. image_norm.
  destruct (truthy flag); image_norm; [| done].
  by rewrite (Hovw eq_refl).
Qed.

Lemma image_run_no_error_log img ev :
  In ev (image_run w config cam_pos_orid dem_file pos_ori_file ortho_dir img).2 ->
  is_error_log ev = false.
Proof.
  image_split; intros H; in_events H; by subst.
Qed.

Lemma image_run_ret_rectified img u :
  (image_run w config cam_pos_orid dem_file pos_ori_file ortho_dir img).1 = Ret u ->
  exists oi,
    In (EvOrthorectify oi)
       (image_run w config cam_pos_orid dem_file pos_ori_file ortho_dir img).2
    /\ orthorectify w oi = None.
Proof.
  image_split; intros H; try discriminate H.
  all: eexists; split; [simpl; tauto | done].
Qed.

Lemma image_log_discipline img :
  match kstatus img with
  | Succeeded =>
      (exists oi, In (EvOrthorectify oi) (kevents img) /\ orthorectify w oi = None)
      /\ forall ev, In ev (kevents img) -> is_error_log ev = false
  | Skipped e =>
      exists before,
        kevents img = before ++ [EvLog ERROR ("Exception: " +:+ exn_str e)]
        /\ forall ev, In ev before -> is_error_log ev = false
  end.
Proof.
  destruct (image_body_emits w config cam_pos_orid dem_file pos_ori_file ortho_dir img)
    as [_ Hne].
  pose proof (image_run_no_error_log img) as Hlog.
  pose proof (image_run_ret_rectified img) as Hret.
  unfold image_status_of, image_events, error_event.
  destruct (image_run _ _ _ _ _ _ _).1 as [u | e | c]; [| | done].
  - rewrite app_nil_r. split; [by apply (Hret u) | apply Hlog].
  - by exists (image_run w config cam_pos_orid dem_file pos_ori_file ortho_dir img).2.
Qed.

(** X16.  How one image is logged: an image reported [Succeeded] has been
    orthorectified ([orthorectify] was called and returned) and has no
    ERROR line; an image reported [Skipped] has exactly one ERROR line,
    its last event, with the text of the exception it is skipped for. *)
Theorem X16_one_error_line_per_skipped_image img :
  exists st evs,
    (forall s, process_image w config cam_pos_orid dem_file pos_ori_file ortho_dir img s
               = (Ret (img, st), MkState (fs s) (trace s ++ evs)))
    /\ match st with
       | Succeeded =>
           (exists oi, In (EvOrthorectify oi) evs /\ orthorectify w oi = None)
           /\ forall ev, In ev evs -> is_error_log ev = false
       | Skipped e =>
           exists before,
             evs = before ++ [EvLog ERROR ("Exception: " +:+ exn_str e)]
             /\ forall ev, In ev before -> is_error_log ev = false
       end.
Proof.
  eexists _, _.
  split; [apply (process_image_emits w config cam_pos_orid dem_file pos_ori_file
                   ortho_dir img) |].
  apply image_log_discipline.
Qed.

Lemma image_flag_missing img oi oc e :
  getitem config "ortho" = Ok oc ->
  getitem oc "build_ovw" = Err e ->
  In (EvOrthorectify oi) (kevents img) ->
  orthorectify w oi = None ->
  kstatus img = Skipped e
  /\ forall oi', ~ In (EvBuildOverviews oi') (kevents img).
Proof.
  intros Hoc Hflag. unfold image_events, image_status_of. image_norm.
  rewrite ?Hoc. image_split; rewrite ?Hflag; image_norm.
  all: intros H; in_events H; injection H as <-; intros Hort; try congruence.
  all: split; [congruence | intros oi' H'; in_events H'].
Qed.

(** X17.  When [config['ortho']] has no [build_ovw], an image that has
    been orthorectified is still reported [Skipped], for the failed
    lookup, and no overview is built. *)
Theorem X17_missing_flag_fails_a_rectified_image img oc e :
  getitem config "ortho" = Ok oc ->
  getitem oc "build_ovw" = Err e ->
  exists st evs,
    (forall s, process_image w config cam_pos_orid dem_file pos_ori_file ortho_dir img s
               = (Ret (img, st), MkState (fs s) (trace s ++ evs)))
    /\ forall oi, In (EvOrthorectify oi) evs -> orthorectify w oi = None ->
         st = Skipped e /\ forall oi', ~ In (EvBuildOverviews oi') evs.
Proof.
  intros Hoc Hflag. eexists _, _.
  split; [apply (process_image_emits w config cam_pos_orid dem_file pos_ori_file
                   ortho_dir img) |].
  intros oi. by apply image_flag_missing with oc.
Qed.

End ImageOutcomes.

Lemma X15_witness :
  let cam := MkCamera (YFloat 120.0) (YSeq [YFloat 92.5; YFloat 165.875])
               [np_float64 4000; np_float64 3000] (transform Sample.raster)
               (position_of (Series Sample.img001))
               (orientation_of (Series Sample.img001)) in
  let oi := MkOrthoIm (Path "img001.tif") "dem.tif" cam
              (YMap [(YStr "build_ovw", YBool true)])
              (Some (joinpath (Path "out") "img001_ORTHO.tif")) in
  process_image Sample.world Sample.config Cases.table "dem.tif" "pose.txt" (Some "out")
    (Path "img001.tif") Sample.init
  = (Ret (Path "img001.tif", Succeeded),
     MkState (fs Sample.init)
       (trace Sample.init
          ++ [EvRioOpen (Path "img001.tif"); EvCamera cam;
              EvLog INFO "Orthorectifying img001.tif";
              EvOrthoIm oi; EvOrthorectify oi; EvLog INFO completed_msg;
              EvLog INFO "Building overviews for img001.tif";
              EvBuildOverviews oi; EvLog INFO completed_msg])).
Proof.
  intros cam oi.
  apply (X15_image_that_succeeds Sample.world Sample.config Cases.table "dem.tif"
           "pose.txt" (Some "out") (Path "img001.tif") (Series Sample.img001)
           Sample.raster
           (YMap [(YStr "focal_len", YFloat 120.0);
                  (YStr "sensor_size", YSeq [YFloat 92.5; YFloat 165.875])])
           (YFloat 120.0) (YSeq [YFloat 92.5; YFloat 165.875])
           (YMap [(YStr "build_ovw", YBool true)]) (YBool true) Sample.init);
    first [ reflexivity | intros _; reflexivity ].
Defined.

Lemma X17_witness :
  exists evs oi,
    (forall s, process_image Cases.no_build_ovw Cases.config_no_ovw Cases.table "dem.tif"
                 "pose.txt" None (Path "img001.tif") s
               = (Ret (Path "img001.tif", Skipped (KeyError "build_ovw")),
                  MkState (fs s) (trace s ++ evs)))
    /\ In (EvOrthorectify oi) evs
    /\ forall oi', ~ In (EvBuildOverviews oi') evs.
Proof.
  destruct (X17_missing_flag_fails_a_rectified_image
              Cases.no_build_ovw Cases.config_no_ovw Cases.table "dem.tif" "pose.txt"
              None (Path "img001.tif") (YMap []) (KeyError "build_ovw"))
    as (st & evs & Hrun & Hskip); [reflexivity .. |].
  pose proof (Hrun blank) as Hev. vm_compute in Hev.
  injection Hev as Hst Hevs.
  destruct (Hskip (MkOrthoIm (Path "img001.tif") "dem.tif"
                     (MkCamera (YFloat 120.0) (YSeq [YFloat 92.5; YFloat 165.875])
                        [np_float64 4000; np_float64 3000] (transform Sample.raster)
                        (position_of (Series Sample.img001))
                        (orientation_of (Series Sample.img001)))
                     (YMap []) None)) as [-> Hnone].
  - rewrite <- Hevs. vm_compute. tauto.
  - reflexivity.
  - eexists evs, _. split; [exact Hrun |]. split; [| exact Hnone].
    rewrite <- Hevs. vm_compute. right. right. right. right. left. reflexivity.
Defined.

(** ** Where the output goes *)

Lemma split_on_slash_free s :
  List.Forall (fun c => slash_free c = true) (split_on "/" s).
Proof.
  induction s as [| c s IH]; simpl; [by constructor |].
  destruct (Ascii.eqb c "/") eqn:Hc; [by constructor |].
  destruct (split_on "/" s) as [| h t]; [constructor; [| done] |].
  - simpl. by rewrite Hc.
  - inversion IH as [| ? ? Hh Ht]; subst. constructor; [| done].
    simpl. by rewrite Hc.
Qed.

Lemma slash_free_last (l : list string) :
  List.Forall (fun c => slash_free c = true) l -> slash_free (List.last l "") = true.
Proof.
  induction 1 as [| x l Hx Hl IH]; [done |].
  destruct l; [done | exact IH].
Qed.

(** The name of a path made from a string holds no [/]. *)
Lemma Path_name_slash_free s : slash_free (path_name (Path s)) = true.
Proof.
  unfold path_name, Path. simpl. apply slash_free_last.
  pose proof (split_on_slash_free s) as H.
  induction H as [| x l Hx Hl IH]; [constructor |].
  destruct (decide (is_component x = true)) as [Hc | Hc].
  - rewrite filter_cons_True by done. by constructor.
  - by rewrite filter_cons_False.
Qed.

Section ImageOutput.

Context (w : World) (config : yaml) (cam_pos_orid : pose_table)
        (dem_file pos_ori_file : string) (ortho_dir : option string).

Lemma image_orthoim_fields img oi :
  In (EvOrthoIm oi)
     (image_events w config cam_pos_orid dem_file pos_ori_file ortho_dir img) ->
  src_im_filename oi = img
  /\ dem_filename oi = dem_file
  /\ getitem config "ortho" = Ok (ortho_config oi)
  /\ ortho_im_filename oi
     = match ortho_dir with
       | Some d => Some (joinpath (Path d) (path_stem img +:+ "_ORTHO.tif"))
       | None => None
       end.
Proof.
  unfold image_events.
  image_split; intros H; in_events H; injection H as <-; done.
Qed.

(** X18.  What the engine's [OrthoIm] is given for an image: the image's
    own path, the DEM path as passed, [config['ortho']], and as output
    file, with an ortho directory, the file [<stem>_ORTHO.tif] directly
    in that directory, and without one, [None], which leaves the place
    to the engine. *)
Theorem X18_output_file_is_named_after_the_stem img :
  slash_free (path_name img) = true ->
  exists st evs,
    (forall s, process_image w config cam_pos_orid dem_file pos_ori_file ortho_dir img s
               = (Ret (img, st), MkState (fs s) (trace s ++ evs)))
    /\ forall oi, In (EvOrthoIm oi) evs ->
         src_im_filename oi = img
         /\ dem_filename oi = dem_file
         /\ getitem config "ortho" = Ok (ortho_config oi)
         /\ match ortho_dir with
            | Some d =>
                exists out,
                  ortho_im_filename oi = Some out
                  /\ path_name out = path_stem img +:+ "_ORTHO.tif"
                  /\ path_parent out = Path d
            | None => ortho_im_filename oi = None
            end.
Proof.
  intros Hname. eexists _, _.
  split; [apply (process_image_emits w config cam_pos_orid dem_file pos_ori_file
                   ortho_dir img) |].
  intros oi (Hsrc & Hdem & Hcfg & Hout)%image_orthoim_fields.
  repeat (split; [done |]).
  destruct ortho_dir as [d |]; [| done].
  eexists. split; [exact Hout |].
  apply joinpath_ortho_name. by apply slash_free_stem.
Qed.

Lemma image_camera_of_selection img sel c :
  loc cam_pos_orid (path_stem img) = Ok sel ->
  In (EvCamera c)
     (image_events w config cam_pos_orid dem_file pos_ori_file ortho_dir img) ->
  position c = position_of sel /\ orientation c = orientation_of sel.
Proof.
  intros Hloc. unfold image_events. image_norm. rewrite Hloc.
  image_split; intros H; in_events H; injection H as <-; done.
Qed.

(** X19.  An image whose stem labels two or more rows of the pose table
    is given all of them, none is chosen: every camera built for it has
    as position the 3 x n array of the rows' eastings, northings and
    altitudes, and as orientation the n x 3 array of the rows' angles in
    radians. *)
Theorem X19_repeated_stem_passes_all_rows img r1 r2 rs :
  rows_of cam_pos_orid (path_stem img) = r1 :: r2 :: rs ->
  exists st evs,
    (forall s, process_image w config cam_pos_orid dem_file pos_ori_file ortho_dir img s
               = (Ret (img, st), MkState (fs s) (trace s ++ evs)))
    /\ forall c, In (EvCamera c) evs ->
         position c
         = Arr2 [map easting (r1 :: r2 :: rs); map northing (r1 :: r2 :: rs);
                 map altitude (r1 :: r2 :: rs)]
         /\ orientation c
            = Arr2 (map (fun r => [deg2rad (omega r); deg2rad (phi r); deg2rad (kappa r)])
                      (r1 :: r2 :: rs)).
Proof.
  intros Hrows. eexists _, _.
  split; [apply (process_image_emits w config cam_pos_orid dem_file pos_ori_file
                   ortho_dir img) |].
  intros c Hc.
  apply (image_camera_of_selection img (Frame (r1 :: r2 :: rs))); [| done].
  unfold loc. by rewrite Hrows.
Qed.

End ImageOutput.

Lemma X18_witness :
  exists st evs,
    (forall s, process_image Sample.world Sample.config Cases.table "dem.tif" "pose.txt"
                 (Some "out/") (Path "data/img001.tif") s
               = (Ret (Path "data/img001.tif", st), MkState (fs s) (trace s ++ evs)))
    /\ forall oi, In (EvOrthoIm oi) evs ->
         exists out,
           ortho_im_filename oi = Some out
           /\ path_name out = "img001_ORTHO.tif" /\ path_str (path_parent out) = "out".
Proof.
  destruct (X18_output_file_is_named_after_the_stem
              Sample.world Sample.config Cases.table "dem.tif" "pose.txt" (Some "out/")
              (Path "data/img001.tif"))
    as (st & evs & Hrun & Hout); [reflexivity |].
  exists st, evs. split; [exact Hrun |].
  intros oi (_ & _ & _ & out & Hfile & Hname & Hparent)%Hout.
  exists out. split; [exact Hfile |]. split; [exact Hname |].
  rewrite Hparent. reflexivity.
Defined.

Lemma X19_witness :
  exists st evs,
    (forall s, process_image Sample.world Sample.config Cases.repeated "dem.tif" "pose.txt"
                 None (Path "img001.tif") s
               = (Ret (Path "img001.tif", st), MkState (fs s) (trace s ++ evs)))
    /\ forall c, In (EvCamera c) evs ->
         position c = Arr2 [[500000; 500010]; [4000000; 4000020]; [1200; 1250]]%float.
Proof.
  destruct (X19_repeated_stem_passes_all_rows
              Sample.world Sample.config Cases.repeated "dem.tif" "pose.txt" None
              (Path "img001.tif") Sample.img001 Cases.img001_again [])
    as (st & evs & Hrun & Hcam); [reflexivity |].
  exists st, evs. split; [exact Hrun |].
  intros c [Hpos _]%Hcam. rewrite Hpos. reflexivity.
Defined.

(** ** The log and the report *)

Lemma filter_none {A} (f : A -> bool) (l : list A) :
  (forall x, In x l -> f x = false) -> List.filter f l = [].
Proof.
  induction l as [| x l IH]; [done |]. intros H. simpl.
  rewrite (H x) by (by left). apply IH. intros y Hy. apply H. by right.
Qed.

Section LogAndReport.

Context (w : World) (config : yaml) (table : pose_table) (dem pos : string)
        (od : option string).

Lemma image_error_count img :
  length (List.filter is_error_log (image_events w config table dem pos od img))
  = if is_skipped (image_status_of w config table dem pos od img) then 1%nat else 0%nat.
Proof.
  pose proof (image_log_discipline w config table dem pos od img) as H.
  destruct (image_status_of w config table dem pos od img) as [| e].
  - destruct H as [_ H]. by rewrite (filter_none _ _ H).
  - destruct H as (before & -> & H).
    by rewrite List.filter_app, (filter_none _ _ H).
Qed.

Lemma images_error_count (imgs : list path) :
  length (List.filter is_error_log
            (concat (map (image_events w config table dem pos od) imgs)))
  = length (List.filter (fun r => is_skipped r.2)
              (map (fun img => (img, image_status_of w config table dem pos od img))
                 imgs)).
Proof.
  induction imgs as [| img imgs IH]; [done |].
  simpl concat. rewrite List.filter_app, length_app, image_error_count, IH.
  simpl. by destruct (is_skipped _).
Qed.

Lemma loop_error_count src :
  length (List.filter is_error_log (loop_events w config table dem pos od src))
  = length (List.filter (fun r => is_skipped r.2)
              (loop_report w config table dem pos od src)).
Proof.
  unfold loop_events, loop_report, resolved.
  induction src as [| spec src IH]; [done |].
  simpl concat. rewrite map_app. cbn [List.filter].
  change (is_error_log (glob_event spec)) with false. cbv iota.
  rewrite !List.filter_app, !length_app, <- IH.
  by rewrite images_error_count.
Qed.

End LogAndReport.

Section ReportFacts.

Context (w : World).

(** X20.  In a run that reaches the image loop, the log has as many
    ERROR lines as the report has skipped images: every skipped image is
    logged once, and nothing else is logged as an error. *)
Theorem X20_error_lines_count_skipped_images
    src dem pos od rc v s text config table :
  fs s !! path_str (config_path w rc) = Some (File text) ->
  yaml_safe_load w text = Ok config ->
  validations_pass w (fs s) src dem pos od = true ->
  read_csv w pos = Ok table ->
  exists report evs,
    main w src dem pos od rc None v s = (Ret report, MkState (fs s) (trace s ++ evs))
    /\ map fst report = resolved w src
    /\ length (List.filter is_error_log evs)
       = length (List.filter (fun r => is_skipped r.2) report).
Proof.
  intros Hcfg Hy Hval Hcsv. eexists _, _.
  split; [by apply (main_loop_run w src dem pos od rc v s text config table) |].
  split; [apply loop_report_images |].
  rewrite !List.filter_app, !length_app, loop_error_count.
  assert (Hlev : List.filter is_error_log (level_events v) = []) by (by destruct v).
  assert (Hval' : List.filter is_error_log (validation_events src dem pos od) = []).
  { apply filter_none. unfold validation_events. intros ev H.
    apply in_app_iff in H as [(spec & <- & _)%in_map_iff | H]; [done |].
    destruct od; in_events H; by subst. }
  by rewrite Hlev, Hval'.
Qed.

End ReportFacts.

Lemma X20_witness :
  exists report evs,
    main Cases.ovw_fails ["*.tif"] "dem.tif" "pose.txt" None None None (Some 2) Sample.init
    = (Ret report, MkState (fs Sample.init) (trace Sample.init ++ evs))
    /\ map fst report = [Path "img001.tif"; Path "img002.tif"]
    /\ length (List.filter is_error_log evs) = 2%nat.
Proof.
  destruct (X20_error_lines_count_skipped_images
              Cases.ovw_fails ["*.tif"] "dem.tif" "pose.txt" None None (Some 2)
              Sample.init Sample.config_text Sample.config
              [("img001", Sample.img001); ("img002", Sample.img001)])
    as (report & evs & Hrun & Hfst & Hcount); [reflexivity .. |].
  exists report, evs. split; [exact Hrun |]. split; [rewrite Hfst; reflexivity |].
  rewrite Hcount.
  pose proof Hrun as Hev. vm_compute in Hev. injection Hev as <- _.
  reflexivity.
Defined.
